(** * plot_projection.py: weekly projection charts

    A shallow embedding of [src/plot_projection.py] and of the parts of
    pandas, pathlib and matplotlib that the script calls, followed by the
    properties of the loader, of the weekly aggregation and of the effects
    on the file system.

    Conventions of the embedding:
    - a cell of a table is an integer ([Z]) or a Python [str]; machine
      floats, and with them pandas' missing-value marker NaN, are not
      represented;
    - a column has the type pandas infers from its cells, as [read_csv] and
      the [DataFrame] constructor do: integers that fit 64 bits are held as
      [int64] (or [uint64]), and their sums wrap around at 64 bits; any
      other column holds Python objects, added with Python's [+];
    - pandas is the one of version 2: [sum] takes every selected column
      ([numeric_only=False]);
    - a path is a list of names, each a directory entry: the file system
      of the model resolves neither [..] nor symbolic links;
    - a text is a [string] of bytes (UTF-8), as Python's [str] seen through
      its encoding; only ASCII letters change under [lower];
    - a raised exception is the [Raise] case of [result]; effects on the
      file system thread a [World] through the calls, and the world is
      returned together with the outcome so that what an exception leaves
      behind is visible. *)

From Stdlib Require Import ZArith String Ascii.
From stdpp Require Import base option list sorting gmap strings.

Local Open Scope string_scope.
Local Open Scope list_scope.

(** ** Exceptions and results *)

Inductive exception :=
  | KeyError (missing : list string)
  | TypeError
  | ValueError
  | ParserError
  | FileNotFoundError
  | FileExistsError
  | IsADirectoryError
  | NotADirectoryError.

Inductive result (A : Type) :=
  | Ok (a : A)
  | Raise (e : exception).
Arguments Ok {A} a.
Arguments Raise {A} e.

#[global] Instance exception_eq_dec : EqDecision exception.
Proof. solve_decision. Defined.

#[global] Instance result_ret : MRet result := @Ok.
#[global] Instance result_bind : MBind result := λ A B f m,
  match m with
  | Ok a => f a
  | Raise e => Raise e
  end.

(** [for x in l: f x], collecting the results, stopping at the first
    exception. *)
Fixpoint traverse {A B} (f : A → result B) (l : list A) : result (list B) :=
  match l with
  | [] => Ok []
  | x :: l' => y ← f x; ys ← traverse f l'; Ok (y :: ys)
  end.

(** ** Cells: Python values held by a table *)

Inductive cell :=
  | CInt (n : Z)
  | CStr (s : string).

#[global] Instance cell_eq_dec : EqDecision cell.
Proof. solve_decision. Defined.

Definition is_int (c : cell) : bool :=
  match c with CInt _ => true | CStr _ => false end.

Definition is_str (c : cell) : bool :=
  match c with CInt _ => false | CStr _ => true end.

(** The integer in a cell; [0] for a text. *)
Definition int_of (c : cell) : Z :=
  match c with CInt z => z | CStr _ => 0%Z end.

(** Python's [a + b] on objects: addition of Python integers, which have
    no bound, string concatenation, and [TypeError] between an [int] and a
    [str]. *)
Definition py_add (a b : cell) : result cell :=
  match a, b with
  | CInt x, CInt y => Ok (CInt (x + y)%Z)
  | CStr s, CStr t => Ok (CStr (s ++ t)%string)
  | _, _ => Raise TypeError
  end.

(** Python's [a < b] where it is defined: between two integers and between
    two strings (by code point, which is the byte order of UTF-8). *)
Definition py_lt (a b : cell) : Prop :=
  match a, b with
  | CInt x, CInt y => (x < y)%Z
  | CStr s, CStr t => String.le s t ∧ s ≠ t
  | _, _ => False
  end.

(** The order in which pandas lays out group keys ([safe_sort]): Python's
    order inside a type, integers before strings. *)
Definition cell_le (a b : cell) : Prop :=
  match a, b with
  | CInt x, CInt y => (x ≤ y)%Z
  | CStr s, CStr t => String.le s t
  | CInt _, CStr _ => True
  | CStr _, CInt _ => False
  end.

#[global] Instance cell_le_dec : RelDecision cell_le.
Proof. intros [x|s] [y|t]; simpl; apply _. Defined.

(** [Series.sum] of the objects of one group: a left fold of [+] that
    starts from the first value, so that texts are joined in row order; the
    empty sum is [0]. *)
Fixpoint sum_from (acc : cell) (cs : list cell) : result cell :=
  match cs with
  | [] => Ok acc
  | c :: cs' => a ← py_add acc c; sum_from a cs'
  end.

Definition series_sum (cs : list cell) : result cell :=
  match cs with
  | [] => Ok (CInt 0)
  | c :: cs' => sum_from c cs'
  end.

(** ** Column types *)

(** pandas holds a column whose cells are all integers of the [int64]
    range as a numpy array of [int64], one whose cells are all integers of
    the [uint64] range (one of them above the [int64] range) as [uint64],
    and any other column as Python objects. *)
Inductive dtype := Int64 | UInt64 | Object.

Definition in_int64 (z : Z) : bool :=
  (-9223372036854775808 <=? z)%Z && (z <=? 9223372036854775807)%Z.

Definition in_uint64 (z : Z) : bool :=
  (0 <=? z)%Z && (z <=? 18446744073709551615)%Z.

Definition cell_in (range : Z → bool) (c : cell) : bool :=
  match c with CInt z => range z | CStr _ => false end.

Definition infer_dtype (cs : list cell) : dtype :=
  if forallb (cell_in in_int64) cs then Int64
  else if forallb (cell_in in_uint64) cs then UInt64
  else Object.

(** The integer that the low 64 bits of [z] stand for, in two's complement
    and without sign. *)
Definition wrap64 (z : Z) : Z :=
  ((z + 9223372036854775808) mod 18446744073709551616 - 9223372036854775808)%Z.

Definition wrapu64 (z : Z) : Z := (z mod 18446744073709551616)%Z.

(** The sum of the cells of one group in a column of type [d]. In a numpy
    column the accumulator has the 64 bits of the column, from [0], and an
    overflow wraps around without an error; a column of objects is summed
    by [series_sum]. *)
Definition column_sum (d : dtype) (cs : list cell) : result cell :=
  match d with
  | Int64 => Ok (CInt (foldl (λ acc c, wrap64 (acc + int_of c)) 0%Z cs))
  | UInt64 => Ok (CInt (foldl (λ acc c, wrapu64 (acc + int_of c)) 0%Z cs))
  | Object => series_sum cs
  end.

(** ** Tables *)

(** A row gives the cell under each column label; only labels listed in
    [columns] are ever read. *)
Definition row := string → cell.

Record DataFrame := {
  columns : list string;
  rows : list row
}.

(** The cells of a column, in row order. *)
Definition column_cells (df : DataFrame) (c : string) : list cell :=
  (λ r : row, r c) <$> rows df.

(** [row_of] builds a row from its labelled cells (for examples). *)
Fixpoint row_of (cells : list (string * cell)) : row :=
  match cells with
  | [] => λ _, CInt 0
  | (c, v) :: cells' => λ label, if String.eqb label c then v else row_of cells' label
  end.

(** [df.groupby(by)[selection]]: the table, the grouping column and the
    columns to aggregate. *)
Record DataFrameGroupBy := {
  obj : DataFrame;
  by_ : string;
  selection : list string
}.

(** The table indexed by week that [sum] returns: the aggregated column
    labels and, for each index key in order, the values under them. *)
Record Weekly := {
  value_columns : list string;
  entries : list (cell * list cell)
}.

Definition index (t : Weekly) : list cell := (entries t).*1.

Definition METRICS : list string := ["Venda"; "Alvo"; "Reposicao"; "Estoque"].
Definition TITLES : list string :=
  ["Venda proj"; "Alvo proj"; "Reposição proj"; "Estoque proj"].

(** [df.groupby(key)] raises [KeyError] when [key] is not a column. *)
Definition groupby (df : DataFrame) (key : string) : result DataFrameGroupBy :=
  if decide (key ∈ columns df)
  then Ok {| obj := df; by_ := key;
             selection := filter (λ c, c ≠ key) (columns df) |}
  else Raise (KeyError [key]).

(** [g[cols]] raises [KeyError] ("Columns not found") when a label of
    [cols] is not a column. The missing labels are listed here in the order
    of [cols]; pandas collects them in a set and shows them in no fixed
    order. *)
Definition getitem (g : DataFrameGroupBy) (cols : list string)
  : result DataFrameGroupBy :=
  match filter (λ c, c ∉ columns (obj g)) cols with
  | [] => Ok {| obj := obj g; by_ := by_ g; selection := cols |}
  | bad => Raise (KeyError bad)
  end.

(** The cells of the grouping column, in row order. *)
Definition key_values (g : DataFrameGroupBy) : list cell :=
  (λ r : row, r (by_ g)) <$> rows (obj g).

(** The group keys: the distinct values of the grouping column, sorted
    ([groupby] has [sort=True]). *)
Definition group_keys (g : DataFrameGroupBy) : list cell :=
  merge_sort cell_le (remove_dups (key_values g)).

(** The rows of one group, in row order. *)
Definition group_rows (g : DataFrameGroupBy) (k : cell) : list row :=
  filter (λ r : row, r (by_ g) = k) (rows (obj g)).

(** The entry of one group: its key and the sum of each selected column
    over the rows of the group, in the type of the column. *)
Definition group_sum (g : DataFrameGroupBy) (k : cell) : result (cell * list cell) :=
  vals ← traverse (λ c, column_sum (infer_dtype (column_cells (obj g) c))
                                   ((λ r : row, r c) <$> group_rows g k))
                  (selection g);
  Ok (k, vals).

(** [g.sum()], named [groupby_sum] since [sum] is the sum type of the
    standard library: one entry per group key, in the order of the keys. *)
Definition groupby_sum (g : DataFrameGroupBy) : result Weekly :=
  es ← traverse (group_sum g) (group_keys g);
  Ok {| value_columns := selection g; entries := es |}.

(** Keys that Python can compare with each other: all integers or all
    strings. *)
Definition comparable (ks : list cell) : bool :=
  forallb is_int ks || forallb is_str ks.

Definition entry_le (e1 e2 : cell * list cell) : Prop := cell_le e1.1 e2.1.

#[global] Instance entry_le_dec : RelDecision entry_le.
Proof. intros e1 e2. unfold entry_le. apply _. Defined.

(** [t.sort_index()]: ascending by index key; an index that holds both an
    [int] and a [str] cannot be sorted, their comparison raises
    [TypeError]. *)
Definition sort_index (t : Weekly) : result Weekly :=
  if comparable (index t)
  then Ok {| value_columns := value_columns t;
             entries := merge_sort entry_le (entries t) |}
  else Raise TypeError.

(** Line 50, [df.groupby("Semana")[METRICS]]: what comes before the
    aggregation. *)
Definition select_metrics (df : DataFrame) : result DataFrameGroupBy :=
  g ← groupby df "Semana"; getitem g METRICS.

(** Lines 49-53 of [plot_projections]:
    [df.groupby("Semana")[METRICS].sum().sort_index()]. *)
Definition weekly (df : DataFrame) : result Weekly :=
  g ← select_metrics df; t ← groupby_sum g; sort_index t.

(** [t.loc[w, metric]]: the value of a column at an index key. *)
Definition column_pos (t : Weekly) (metric : string) : option nat :=
  fst <$> list_find (λ c, c = metric) (value_columns t).

Definition loc (t : Weekly) (w : cell) (metric : string) : option cell :=
  e ← list_find (λ e : cell * list cell, e.1 = w) (entries t);
  i ← column_pos t metric;
  e.2.2 !! i.

(** [t[metric]]: a column of the aggregated table, in index order;
    [KeyError] when there is no such column. *)
Definition getcolumn (t : Weekly) (metric : string) : result (list cell) :=
  match column_pos t metric with
  | Some i => Ok (omap (λ e : cell * list cell, e.2 !! i) (entries t))
  | None => Raise (KeyError [metric])
  end.

(** ** The figure *)

(** One subplot: the line drawn by [ax.plot(x, y, marker=...)], the title
    and the axis labels. *)
Record Axes := {
  xdata : list cell;
  ydata : list cell;
  marker : string;
  title : string;
  xlabel : string;
  ylabel : string
}.

Definition Figure := list Axes.

(** What [ax.plot] does with the values along an axis. It first sets the
    units of the axis by the first value: after a text the values are
    categories, and a number among them raises [TypeError]. *)
Definition update_units (cs : list cell) : result unit :=
  match cs with
  | CStr _ :: _ => if forallb is_str cs then Ok () else Raise TypeError
  | _ => Ok ()
  end.

(** Values without units are then converted to floats for the line, and a
    text among numbers raises [ValueError]. *)
Definition to_float_array (cs : list cell) : result unit :=
  match cs with
  | CInt _ :: _ => if forallb is_int cs then Ok () else Raise ValueError
  | _ => Ok ()
  end.

(** The body of the loop of lines 56-60, for one metric and its title. *)
Definition plot_metric (t : Weekly) (mt : string * string) : result Axes :=
  ys ← getcolumn t mt.1;
  _ ← update_units (index t);
  _ ← update_units ys;
  _ ← to_float_array (index t);
  _ ← to_float_array ys;
  Ok {| xdata := index t; ydata := ys; marker := "o"; title := mt.2;
        xlabel := "Semana"; ylabel := "Quantidade" |}.

(** Lines 55-62: the 2x2 grid, one subplot per metric, in the order of
    [zip(axes.flat, METRICS, TITLES)]. *)
Definition draw (t : Weekly) : result Figure :=
  traverse (plot_metric t) (zip METRICS TITLES).

(** ** Paths ([pathlib.PurePosixPath]) *)

(** A path is its anchor (["/"] or none) and the names that follow it.
    The file system below takes every name as a directory entry: it
    resolves neither [..] nor symbolic links. *)
Record Path := {
  absolute : bool;
  parts : list string
}.

(** [path.name]: the last name, or [""] when there is none. *)
Definition name (p : Path) : string := default "" (last (parts p)).

(** [path.parent]; the parent of an anchor, or of [Path(".")], is itself. *)
Definition parent (p : Path) : Path :=
  {| absolute := absolute p; parts := removelast (parts p) |}.

(** [s.rfind(c)] *)
Fixpoint rfind (c : ascii) (s : string) : option nat :=
  match s with
  | EmptyString => None
  | String a s' =>
      match rfind c s' with
      | Some i => Some (S i)
      | None => if Ascii.eqb a c then Some 0%nat else None
      end
  end.

(** [s[i:]] *)
Definition slice_from (i : nat) (s : string) : string :=
  substring i (String.length s - i) s.

(** [path.suffix] (CPython up to 3.13): from the last dot of the name on,
    unless that dot is the first or the last character of the name. *)
Definition suffix (p : Path) : string :=
  let nm := name p in
  match rfind "." nm with
  | Some i =>
      if (0 <? i)%nat && (i <? String.length nm - 1)%nat
      then slice_from i nm else ""
  | None => ""
  end.

(** [str.lower] on the bytes of a text: an ASCII capital becomes its small
    letter. No other code point lowers into an ASCII letter of [".csv"] or
    of a file-type name, so comparisons of a lowered text with those are
    the same as in Python. *)
Definition lower_ascii (a : ascii) : ascii :=
  let n := nat_of_ascii a in
  if (65 <=? n)%nat && (n <=? 90)%nat then ascii_of_nat (n + 32) else a.

Fixpoint lower (s : string) : string :=
  match s with
  | EmptyString => EmptyString
  | String a s' => String (lower_ascii a) (lower s')
  end.

(** [s.rstrip('.')] *)
Fixpoint rstrip_dots (s : string) : string :=
  match s with
  | EmptyString => EmptyString
  | String a s' =>
      match rstrip_dots s' with
      | EmptyString => if Ascii.eqb a "." then EmptyString else String a EmptyString
      | t => String a t
      end
  end.

Fixpoint all_dots (s : string) : bool :=
  match s with
  | EmptyString => true
  | String a s' => Ascii.eqb a "." && all_dots s'
  end.

(** [os.path.splitext] on a file name: the extension starts at the last
    dot, unless only dots come before it. *)
Definition splitext (nm : string) : string * string :=
  match rfind "." nm with
  | Some i =>
      if all_dots (substring 0 i nm) then (nm, "")
      else (substring 0 i nm, slice_from i nm)
  | None => (nm, "")
  end.

(** ** The file system *)

Inductive node :=
  | Dir
  | File (content : string).

(** The entries of the file system by their names from the root, the
    working directory, and what was printed. The root is a directory. *)
Record World := {
  cwd : list string;
  files : gmap (list string) node;
  stdout : list string
}.

Definition with_files (f : gmap (list string) node → gmap (list string) node)
    (w : World) : World :=
  {| cwd := cwd w; files := f (files w); stdout := stdout w |}.

(** Where a path points: a relative path starts at the working directory. *)
Definition locate (w : World) (p : Path) : list string :=
  if absolute p then parts p else cwd w ++ parts p.

Definition stat (w : World) (l : list string) : option node :=
  match l with
  | [] => Some Dir
  | _ => files w !! l
  end.

(** A regular file stands where the path needs a directory. *)
Definition blocked (w : World) (l : list string) : bool :=
  existsb (λ n, match stat w (take n l) with Some (File _) => true | _ => false end)
          (seq 0 (length l)).

(** A computation with effects: it returns a value or raises, and leaves a
    world behind in both cases. *)
Definition IO (A : Type) : Type := World → result A * World.

#[global] Instance IO_ret : MRet IO := λ A a w, (Ok a, w).
#[global] Instance IO_bind : MBind IO := λ A B f m w,
  match m w with
  | (Ok a, w') => f a w'
  | (Raise e, w') => (Raise e, w')
  end.

Definition raise {A} (e : exception) : IO A := λ w, (Raise e, w).

Definition lift {A} (r : result A) : IO A := λ w, (r, w).

(** [os.mkdir] *)
Definition os_mkdir (l : list string) : IO unit := λ w,
  if blocked w l then (Raise NotADirectoryError, w)
  else match stat w l with
       | Some _ => (Raise FileExistsError, w)
       | None =>
           match stat w (removelast l) with
           | Some Dir => (Ok (), with_files <[l := Dir]> w)
           | Some (File _) => (Raise NotADirectoryError, w)
           | None => (Raise FileNotFoundError, w)
           end
       end.

(** [Path.is_dir] *)
Definition is_dir (w : World) (l : list string) : bool :=
  negb (blocked w l) &&
  match stat w l with Some Dir => true | _ => false end.

(** [Path.mkdir(parents=False, exist_ok=...)]: [FileNotFoundError] is
    raised again; another [OSError] is dropped when [exist_ok] holds and
    the path is a directory. *)
Definition mkdir_once (l : list string) (exist_ok : bool) : IO unit := λ w,
  match os_mkdir l w with
  | (Ok u, w') => (Ok u, w')
  | (Raise FileNotFoundError, w') => (Raise FileNotFoundError, w')
  | (Raise e, w') => if exist_ok && is_dir w' l then (Ok (), w') else (Raise e, w')
  end.

(** [Path.mkdir(parents=True, exist_ok=...)], by recursion on the names of
    the path from the last one: on [FileNotFoundError] the parent is made
    with [parents=True, exist_ok=True] and the directory is tried once
    more; a path that is its own parent raises again. *)
Fixpoint mkdir_parents (base rnames : list string) (exist_ok : bool) : IO unit := λ w,
  let l := base ++ reverse rnames in
  match os_mkdir l w with
  | (Ok u, w') => (Ok u, w')
  | (Raise FileNotFoundError, w') =>
      match rnames with
      | [] => (Raise FileNotFoundError, w')
      | _ :: rparent =>
          (_ ← mkdir_parents base rparent true; mkdir_once l exist_ok) w'
      end
  | (Raise e, w') => if exist_ok && is_dir w' l then (Ok (), w') else (Raise e, w')
  end.

Definition mkdir (p : Path) (parents exist_ok : bool) : IO unit := λ w,
  if parents
  then mkdir_parents (if absolute p then [] else cwd w) (reverse (parts p)) exist_ok w
  else mkdir_once (locate w p) exist_ok w.

(** [open(path, "rb").read()] *)
Definition read_bytes (p : Path) : IO string := λ w,
  let l := locate w p in
  if blocked w l then (Raise NotADirectoryError, w)
  else match stat w l with
       | Some (File data) => (Ok data, w)
       | Some Dir => (Raise IsADirectoryError, w)
       | None => (Raise FileNotFoundError, w)
       end.

(** [open(path, "wb").write(data)]: the file is created or replaced. *)
Definition write_bytes (p : Path) (data : string) : IO unit := λ w,
  let l := locate w p in
  if blocked w l then (Raise NotADirectoryError, w)
  else match stat w l with
       | Some Dir => (Raise IsADirectoryError, w)
       | Some (File _) => (Ok (), with_files <[l := File data]> w)
       | None =>
           match stat w (removelast l) with
           | Some Dir => (Ok (), with_files <[l := File data]> w)
           | Some (File _) => (Raise NotADirectoryError, w)
           | None => (Raise FileNotFoundError, w)
           end
       end.

(** [print] *)
Definition print (line : string) : IO unit := λ w,
  (Ok (), {| cwd := cwd w; files := files w; stdout := stdout w ++ [line] |}).

(** What [Path.resolve] does to the names of an absolute path where there
    is no symbolic link: [..] drops the name before it, and stays at the
    root. *)
Fixpoint collapse (stack names : list string) : list string :=
  match names with
  | [] => stack
  | n :: rest =>
      if decide (n = "..") then collapse (removelast stack) rest
      else collapse (stack ++ [n]) rest
  end.

(** [str(path.resolve())] *)
Definition resolve (p : Path) : IO string := λ w,
  (Ok ("/" ++ String.concat "/" (collapse [] (locate w p)))%string, w).

(** ** pandas readers and matplotlib writer *)

(** The installed libraries are parameters: what [read_csv] and
    [read_excel] make of the bytes of a file, a table or the exception
    they raise on bytes they cannot parse (pandas' [ParserError] for a
    malformed CSV, [ValueError] for bytes that are no spreadsheet); the
    file types the installed matplotlib writes besides those of
    [supported_filetypes] below; and the bytes of a figure in a file
    type. *)
Record Backend := {
  parse_csv : string → result DataFrame;
  parse_excel : string → result DataFrame;
  more_filetypes : list string;
  print_figure : string → Figure → string
}.

Definition read_csv (B : Backend) (p : Path) : IO DataFrame :=
  data ← read_bytes p; lift (parse_csv B data).

Definition read_excel (B : Backend) (p : Path) : IO DataFrame :=
  data ← read_bytes p; lift (parse_excel B data).

(** The file types of matplotlib 3.10
    ([FigureCanvasBase.get_supported_filetypes]); a later version writes
    more, which [more_filetypes] lists. Rendering is taken to succeed for
    a known type. *)
Definition supported_filetypes : list string :=
  ["eps"; "jpeg"; "jpg"; "pdf"; "pgf"; "png"; "ps"; "raw"; "rgba"; "svg";
   "svgz"; "tif"; "tiff"; "webp"].

(** Where and in which file type [fig.savefig(fname)] writes: the type is
    the extension of [fname], lowered; when there is no extension the type
    is ["png"] and [".png"] is appended to the name (after stripping
    trailing dots); a type that is not known raises [ValueError]. *)
Definition savefig_target (B : Backend) (fname : Path) : result (Path * string) :=
  let ext := (splitext (name fname)).2 in
  let format := slice_from 1 ext in
  if decide (format = "")
  then Ok ({| absolute := absolute fname;
              parts := removelast (parts fname)
                       ++ [(rstrip_dots (name fname) ++ ".png")%string] |},
           "png")
  else if decide (lower format ∈ supported_filetypes ++ more_filetypes B)
       then Ok (fname, lower format)
       else Raise ValueError.

Definition savefig (B : Backend) (fig : Figure) (fname : Path) : IO unit :=
  target ← lift (savefig_target B fname);
  write_bytes target.1 (print_figure B target.2 fig).

(** ** The script *)

Inductive reader := ReadCsv | ReadExcel.

#[global] Instance reader_eq_dec : EqDecision reader.
Proof. solve_decision. Defined.

(** The test of line 38: which reader [load_dataset] calls. *)
Definition choose_reader (path : Path) : reader :=
  if decide (lower (suffix path) = ".csv") then ReadCsv else ReadExcel.

Definition run_reader (B : Backend) (r : reader) (path : Path) : IO DataFrame :=
  match r with
  | ReadCsv => read_csv B path
  | ReadExcel => read_excel B path
  end.

Definition load_dataset (B : Backend) (path : Path) : IO DataFrame :=
  run_reader B (choose_reader path) path.

Definition plot_projections (B : Backend) (df : DataFrame) (output : Path)
  : IO unit :=
  t ← lift (weekly df);
  fig ← lift (draw t);
  _ ← mkdir (parent output) true true;
  savefig B fig output.

Definition default_output : Path :=
  {| absolute := false; parts := ["outputs"; "projecoes.png"] |}.

(** [main], after [argparse] has read the input file and the optional
    [--output]. *)
Definition main (B : Backend) (input_file : Path) (output : option Path)
  : IO unit :=
  let out := default default_output output in
  df ← load_dataset B input_file;
  _ ← plot_projections B df out;
  shown ← resolve out;
  print ("Gráfico salvo em: " ++ shown)%string.

(** ** What the claims are stated with *)

(** The arithmetic sum of a list of integers. *)
Definition arithmetic_sum (zs : list Z) : Z := foldr Z.add 0%Z zs.

(** The cells of the week column, in row order. *)
Definition weeks (df : DataFrame) : list cell :=
  (λ r : row, r "Semana") <$> rows df.

(** The cells of a column in the rows of one week, in row order. *)
Definition cells_of_week (df : DataFrame) (w : cell) (c : string) : list cell :=
  (λ r : row, r c) <$> filter (λ r : row, r "Semana" = w) (rows df).

(** The week column and the four metric columns are there. *)
Definition has_columns (df : DataFrame) : bool :=
  forallb (λ c, bool_decide (c ∈ columns df)) ("Semana" :: METRICS).

(** Every metric cell is a number. *)
Definition numeric_metrics (df : DataFrame) : bool :=
  forallb (λ r : row, forallb (λ m, is_int (r m)) METRICS) (rows df).

(** The week identifiers can be compared with each other. *)
Definition comparable_weeks (df : DataFrame) : bool := comparable (weeks df).

(** What [df.groupby("Semana")[METRICS]] is when it does not raise. *)
Definition grouped (df : DataFrame) : DataFrameGroupBy :=
  {| obj := df; by_ := "Semana"; selection := METRICS |}.

(** Every metric cell is an integer of the [int64] range, so that pandas
    holds the metric columns as [int64]. *)
Definition int64_metrics (df : DataFrame) : bool :=
  forallb (λ r : row, forallb (λ m, cell_in in_int64 (r m)) METRICS) (rows df).

(** A table of 64-bit integers: the column labels are distinct, the week
    column and the four metric columns are there, and every cell of theirs
    is an integer of the [int64] range. *)
Definition int64_table (df : DataFrame) : bool :=
  bool_decide (NoDup (columns df)) && has_columns df &&
  forallb (λ r : row, forallb (λ c, cell_in in_int64 (r c)) ("Semana" :: METRICS))
          (rows df).

(** The sum of integers in a column of type [d], in closed form. *)
Definition dtype_sum (d : dtype) (zs : list Z) : Z :=
  match d with
  | Int64 => wrap64 (arithmetic_sum zs)
  | UInt64 => wrapu64 (arithmetic_sum zs)
  | Object => arithmetic_sum zs
  end.

(** The week_totals of a numeric table in closed form. *)
Definition week_total (df : DataFrame) (w : cell) (m : string) : cell :=
  CInt (dtype_sum (infer_dtype (column_cells df m))
                  (int_of <$> cells_of_week df w m)).

(** The exact sum of a metric over the rows of every week fits the
    [int64] range. *)
Definition week_sums_fit (df : DataFrame) (m : string) : bool :=
  forallb (λ w, in_int64 (arithmetic_sum (int_of <$> cells_of_week df w m)))
          (weeks df).

Definition week_totals (df : DataFrame) : Weekly :=
  {| value_columns := METRICS;
     entries := (λ w, (w, week_total df w <$> METRICS)) <$> group_keys (grouped df) |}.

(** The operation fails before the aggregation step: [groupby] or the
    selection of the metric columns raises, and [sum] is never called. *)
Definition fails_before_aggregation (df : DataFrame) : Prop :=
  ∃ e, select_metrics df = Raise e.

(** ** What the claims about the file system are stated with *)

(** [os.path.exists] *)
Definition path_exists (w : World) (l : list string) : bool :=
  negb (blocked w l) && match stat w l with Some _ => true | None => false end.

(** A name that the file system takes as it is: not empty, neither [.]
    nor [..], of at most 255 bytes, and without a slash or a null byte. *)
Definition entry_name (s : string) : bool :=
  negb (String.eqb s "") && negb (String.eqb s ".") && negb (String.eqb s "..")
  && (String.length s <=? 255)%nat
  && match rfind "/" s with None => true | Some _ => false end
  && match rfind Ascii.zero s with None => true | Some _ => false end.

(** A place given by plain names from the root, short enough to be passed
    to the system as one path. *)
Definition entry_names (l : list string) : bool :=
  forallb entry_name l && (String.length (String.concat "/" l) <? 4095)%nat.

(** The file type named by the extension of a path. *)
Definition filetype (p : Path) : string :=
  lower (slice_from 1 (splitext (name p)).2).

(** Every entry lies in a directory. *)
Definition tree_closed (w : World) : bool :=
  forallb (λ e : list string * node,
             match stat w (removelast e.1) with Some Dir => true | _ => false end)
          (map_to_list (files w)).

(** A world the script can run in: every entry lies in a directory and
    the working directory is one. *)
Definition world_ok (w : World) : bool :=
  tree_closed w && match stat w (cwd w) with Some Dir => true | _ => false end.

Definition closed (w : World) : Prop :=
  ∀ l n, files w !! l = Some n → stat w (removelast l) = Some Dir.

(** The world [w'] is [w] with directories added along the path [l]. *)
Definition adds_dirs (w w' : World) (l : list string) : Prop :=
  cwd w' = cwd w ∧ stdout w' = stdout w ∧
  ∀ p, stat w' p = stat w p ∨
       (stat w p = None ∧ stat w' p = Some Dir ∧ p `prefix_of` l).

(** The world [w'] keeps every entry of [w] and may hold more
    directories; the working directory and the output are those of [w]. *)
Definition grows_by_dirs (w w' : World) : Prop :=
  cwd w' = cwd w ∧ stdout w' = stdout w ∧
  ∀ p, stat w' p = stat w p ∨ (stat w p = None ∧ stat w' p = Some Dir).

(** ** Tables, worlds and a backend for the examples *)

(** Three rows, two weeks, out of order. *)
Definition example_df : DataFrame :=
  {| columns := ["FILIAL"; "SKU"; "Semana"; "Venda"; "Alvo"; "Reposicao"; "Estoque"];
     rows := [
       row_of [("FILIAL", CInt 1); ("SKU", CStr "A"); ("Semana", CInt 2);
               ("Venda", CInt 7); ("Alvo", CInt 8); ("Reposicao", CInt 0);
               ("Estoque", CInt 30)];
       row_of [("FILIAL", CInt 1); ("SKU", CStr "A"); ("Semana", CInt 1);
               ("Venda", CInt 10); ("Alvo", CInt 12); ("Reposicao", CInt 2);
               ("Estoque", CInt 50)];
       row_of [("FILIAL", CInt 2); ("SKU", CStr "B"); ("Semana", CInt 1);
               ("Venda", CInt 5); ("Alvo", CInt 6); ("Reposicao", CInt 1);
               ("Estoque", CInt 20)]] |}.

(** The two rows of the end-to-end example of the specification. *)
Definition spec_df : DataFrame :=
  {| columns := ["FILIAL"; "SKU"; "Semana"; "Venda"; "Alvo"; "Reposicao"; "Estoque"];
     rows := [
       row_of [("FILIAL", CInt 1); ("SKU", CStr "A"); ("Semana", CInt 1);
               ("Venda", CInt 10); ("Alvo", CInt 12); ("Reposicao", CInt 2);
               ("Estoque", CInt 50)];
       row_of [("FILIAL", CInt 2); ("SKU", CStr "B"); ("Semana", CInt 1);
               ("Venda", CInt 5); ("Alvo", CInt 6); ("Reposicao", CInt 1);
               ("Estoque", CInt 20)]] |}.


(** The weeks and metrics of [spec_df] under other branches and products,
    with one more column. *)
Definition relabelled_df : DataFrame :=
  {| columns := ["Obs"; "Semana"; "Venda"; "Alvo"; "Reposicao"; "Estoque";
                 "FILIAL"; "SKU"];
     rows := [
       row_of [("Obs", CStr "loja nova"); ("FILIAL", CInt 7); ("SKU", CStr "Z");
               ("Semana", CInt 1); ("Venda", CInt 10); ("Alvo", CInt 12);
               ("Reposicao", CInt 2); ("Estoque", CInt 50)];
       row_of [("Obs", CStr ""); ("FILIAL", CInt 7); ("SKU", CStr "Y");
               ("Semana", CInt 1); ("Venda", CInt 5); ("Alvo", CInt 6);
               ("Reposicao", CInt 1); ("Estoque", CInt 20)]] |}.

(** The table of [example_df] without its stock column. *)
Definition no_stock_df : DataFrame :=
  {| columns := ["FILIAL"; "SKU"; "Semana"; "Venda"; "Alvo"; "Reposicao"];
     rows := rows example_df |}.

(** A table whose sales column holds text. *)
Definition text_df : DataFrame :=
  {| columns := ["Semana"; "Venda"; "Alvo"; "Reposicao"; "Estoque"];
     rows := [
       row_of [("Semana", CInt 1); ("Venda", CStr "dez"); ("Alvo", CInt 12);
               ("Reposicao", CInt 2); ("Estoque", CInt 50)];
       row_of [("Semana", CInt 1); ("Venda", CStr "cinco"); ("Alvo", CInt 6);
               ("Reposicao", CInt 1); ("Estoque", CInt 20)]] |}.

Definition example_weekly : Weekly :=
  {| value_columns := METRICS;
     entries := [(CInt 1, [CInt 15; CInt 18; CInt 3; CInt 70]);
                 (CInt 2, [CInt 7; CInt 8; CInt 0; CInt 30])] |}.

(** What is drawn from [example_df]. *)
Definition example_figure : Figure :=
  [ {| xdata := [CInt 1; CInt 2]; ydata := [CInt 15; CInt 7]; marker := "o";
       title := "Venda proj"; xlabel := "Semana"; ylabel := "Quantidade" |};
    {| xdata := [CInt 1; CInt 2]; ydata := [CInt 18; CInt 8]; marker := "o";
       title := "Alvo proj"; xlabel := "Semana"; ylabel := "Quantidade" |};
    {| xdata := [CInt 1; CInt 2]; ydata := [CInt 3; CInt 0]; marker := "o";
       title := "Reposição proj"; xlabel := "Semana"; ylabel := "Quantidade" |};
    {| xdata := [CInt 1; CInt 2]; ydata := [CInt 70; CInt 30]; marker := "o";
       title := "Estoque proj"; xlabel := "Semana"; ylabel := "Quantidade" |} ].

(** A backend for the examples: every file parses to [spec_df] as CSV and
    is refused as a spreadsheet; an image is shown by its file type. *)
Definition demo : Backend :=
  {| parse_csv := λ _, Ok spec_df;
     parse_excel := λ _, Raise ValueError;
     more_filetypes := [];
     print_figure := λ format _, ("image/" ++ format)%string |}.

(** A home directory that holds a data file. *)
Definition home : World :=
  {| cwd := ["home"; "ana"];
     files := {[ ["home"] := Dir;
                 ["home"; "ana"] := Dir;
                 ["home"; "ana"; "dados.CSV"] := File "Semana,Venda" ]};
     stdout := [] |}.

Definition relative (names : list string) : Path :=
  {| absolute := false; parts := names |}.

Definition spec_weekly : Weekly :=
  {| value_columns := METRICS;
     entries := [(CInt 1, [CInt 15; CInt 18; CInt 3; CInt 70])] |}.

(** The columns of [spec_df] and no row. *)
Definition empty_df : DataFrame :=
  {| columns := columns spec_df; rows := [] |}.

(** Weeks given partly as numbers and partly as texts. *)
Definition mixed_weeks_df : DataFrame :=
  {| columns := ["Semana"; "Venda"; "Alvo"; "Reposicao"; "Estoque"];
     rows := [
       row_of [("Semana", CInt 1); ("Venda", CInt 10); ("Alvo", CInt 12);
               ("Reposicao", CInt 2); ("Estoque", CInt 50)];
       row_of [("Semana", CStr "S2"); ("Venda", CInt 5); ("Alvo", CInt 6);
               ("Reposicao", CInt 1); ("Estoque", CInt 20)]] |}.


(** Sales given as a text in week 1 and as a number in week 2. *)
Definition mixed_sales_df : DataFrame :=
  {| columns := ["Semana"; "Venda"; "Alvo"; "Reposicao"; "Estoque"];
     rows := [
       row_of [("Semana", CInt 1); ("Venda", CStr "dez"); ("Alvo", CInt 12);
               ("Reposicao", CInt 2); ("Estoque", CInt 50)];
       row_of [("Semana", CInt 2); ("Venda", CInt 5); ("Alvo", CInt 6);
               ("Reposicao", CInt 1); ("Estoque", CInt 20)]] |}.

(** A backend whose matplotlib also writes GIF images. *)
Definition demo_gif : Backend :=
  {| parse_csv := parse_csv demo;
     parse_excel := parse_excel demo;
     more_filetypes := ["gif"];
     print_figure := print_figure demo |}.

(** The home directory with a directory named like an image. *)
Definition album : World :=
  {| cwd := ["home"; "ana"];
     files := {[ ["home"] := Dir;
                 ["home"; "ana"] := Dir;
                 ["home"; "ana"; "album.png"] := Dir ]};
     stdout := [] |}.

(** * Properties *)

(** Unfolds one step of a computation with effects. *)
Ltac run_io := unfold lift, raise, mbind, IO_bind.

(** ** The order of the index *)

#[global] Instance cell_le_refl : Reflexive cell_le.
Proof. intros [x|s]; simpl; [lia | reflexivity]. Qed.

#[global] Instance cell_le_trans : Transitive cell_le.
Proof.
  intros [x|s] [y|t] [z|u]; simpl; try tauto; try lia.
  apply (transitivity (R := String.le)).
Qed.

#[global] Instance cell_le_antisym : AntiSymm (=) cell_le.
Proof.
  intros [x|s] [y|t]; simpl; try tauto.
  - intros. f_equal. lia.
  - intros H1 H2. f_equal. by apply (anti_symm String.le).
Qed.

#[global] Instance cell_le_total : Total cell_le.
Proof.
  intros [x|s] [y|t]; simpl; try tauto; [lia | apply (total String.le)].
Qed.

#[global] Instance entry_le_trans : Transitive entry_le.
Proof. intros e1 e2 e3. unfold entry_le. apply (transitivity (R := cell_le)). Qed.

#[global] Instance entry_le_total : Total entry_le.
Proof. intros e1 e2. unfold entry_le. apply (total cell_le). Qed.

Lemma py_lt_of_le (a b : cell) :
  is_int a = is_int b → cell_le a b → a ≠ b → py_lt a b.
Proof.
  destruct a as [x|s], b as [y|t]; simpl; try done.
  - intros _ Hle Hne. destruct (decide (x = y)) as [->|]; [done | lia].
  - intros _ Hle Hne. split; [done | congruence].
Qed.

(** ** Traversals *)

Lemma traverse_Ok {A B} (f : A → result B) (l : list A) (ys : list B) :
  traverse f l = Ok ys ↔ Forall2 (λ x y, f x = Ok y) l ys.
Proof.
  revert ys. induction l as [|x l IH]; intros ys; simpl.
  - split; [intros [= <-]; constructor | by inversion 1].
  - destruct (f x) as [y|e] eqn:Hx; simpl.
    + destruct (traverse f l) as [zs|e] eqn:Hl; simpl.
      * split.
        -- intros [= <-]. constructor; [done | by apply IH].
        -- inversion 1 as [|? y' ? zs' Hy Hzs]; subst.
           apply IH in Hzs. congruence.
      * split; [done |].
        inversion 1 as [|? y' ? zs' Hy Hzs]; subst.
        apply IH in Hzs. congruence.
    + split; [done |]. inversion 1; congruence.
Qed.

Lemma traverse_fmap {A B} (f : A → result B) (g : A → B) (l : list A) :
  (∀ x, x ∈ l → f x = Ok (g x)) → traverse f l = Ok (g <$> l).
Proof.
  induction l as [|x l IH]; intros Hf; simpl; [done |].
  rewrite Hf by left. simpl. rewrite IH; [done |].
  intros y Hy. apply Hf. by right.
Qed.

Lemma traverse_ext {A B} (f g : A → result B) (l : list A) :
  (∀ x, x ∈ l → f x = g x) → traverse f l = traverse g l.
Proof.
  induction l as [|x l IH]; intros Hf; simpl; [done |].
  rewrite Hf by left. rewrite IH; [done |].
  intros y Hy. apply Hf. by right.
Qed.

(** ** Sums of one group *)

Lemma sum_from_ints (a : Z) (zs : list Z) :
  sum_from (CInt a) (CInt <$> zs) = Ok (CInt (a + arithmetic_sum zs)).
Proof.
  revert a. induction zs as [|z zs IH]; intros a; simpl.
  - by rewrite Z.add_0_r.
  - rewrite IH. do 2 f_equal. lia.
Qed.

Lemma series_sum_ints (zs : list Z) :
  series_sum (CInt <$> zs) = Ok (CInt (arithmetic_sum zs)).
Proof. destruct zs as [|z zs]; [done |]. simpl. apply sum_from_ints. Qed.

(** ** Sums in a column of 64 bits *)

Lemma wrap64_add_l (a b : Z) : wrap64 (wrap64 a + b) = wrap64 (a + b).
Proof.
  unfold wrap64. f_equal.
  replace ((a + 9223372036854775808) mod 18446744073709551616
           - 9223372036854775808 + b + 9223372036854775808)%Z
    with ((a + 9223372036854775808) mod 18446744073709551616 + b)%Z by lia.
  rewrite Zplus_mod_idemp_l. f_equal. lia.
Qed.

Lemma wrap64_add_r (a b : Z) : wrap64 (a + wrap64 b) = wrap64 (a + b).
Proof. by rewrite Z.add_comm, wrap64_add_l, Z.add_comm. Qed.

Lemma wrapu64_add_l (a b : Z) : wrapu64 (wrapu64 a + b) = wrapu64 (a + b).
Proof. unfold wrapu64. apply Zplus_mod_idemp_l. Qed.

Lemma wrap64_in_range (z : Z) : in_int64 z = true → wrap64 z = z.
Proof.
  unfold in_int64, wrap64. rewrite andb_true_iff, !Z.leb_le. intros [Hlo Hhi].
  rewrite Z.mod_small; lia.
Qed.


Lemma foldl_wrap64 (acc : Z) (zs : list Z) :
  foldl (λ acc c, wrap64 (acc + int_of c)) (wrap64 acc) (CInt <$> zs)
  = wrap64 (acc + arithmetic_sum zs).
Proof.
  revert acc. induction zs as [|z zs IH]; intros acc.
  - cbn. by rewrite Z.add_0_r.
  - rewrite fmap_cons. cbn [foldl int_of]. rewrite wrap64_add_l, IH.
    f_equal. unfold arithmetic_sum. cbn [foldr]. lia.
Qed.

Lemma foldl_wrapu64 (acc : Z) (zs : list Z) :
  foldl (λ acc c, wrapu64 (acc + int_of c)) (wrapu64 acc) (CInt <$> zs)
  = wrapu64 (acc + arithmetic_sum zs).
Proof.
  revert acc. induction zs as [|z zs IH]; intros acc.
  - cbn. by rewrite Z.add_0_r.
  - rewrite fmap_cons. cbn [foldl int_of]. rewrite wrapu64_add_l, IH.
    f_equal. unfold arithmetic_sum. cbn [foldr]. lia.
Qed.

Lemma column_sum_ints (d : dtype) (zs : list Z) :
  column_sum d (CInt <$> zs) = Ok (CInt (dtype_sum d zs)).
Proof.
  destruct d; cbn [column_sum dtype_sum].
  - change 0%Z with (wrap64 0) at 1. by rewrite foldl_wrap64.
  - change 0%Z with (wrapu64 0) at 1. by rewrite foldl_wrapu64.
  - apply series_sum_ints.
Qed.



#[global] Instance arithmetic_sum_Permutation :
  Proper ((≡ₚ) ==> (=)) arithmetic_sum.
Proof.
  intros zs1 zs2 Hp. unfold arithmetic_sum.
  induction Hp; simpl; lia.
Qed.


Lemma ints_of_cells (cs : list cell) :
  forallb is_int cs = true → cs = CInt <$> (int_of <$> cs).
Proof.
  induction cs as [|[z|s] cs IH]; simpl; [done | | done].
  intros H. f_equal. by apply IH.
Qed.

(** ** Group keys *)

Lemma elem_of_group_keys (g : DataFrameGroupBy) (k : cell) :
  k ∈ group_keys g ↔ k ∈ key_values g.
Proof.
  unfold group_keys. rewrite merge_sort_Permutation. apply elem_of_remove_dups.
Qed.

Lemma NoDup_group_keys (g : DataFrameGroupBy) : NoDup (group_keys g).
Proof.
  unfold group_keys. rewrite merge_sort_Permutation. apply NoDup_remove_dups.
Qed.

Lemma StronglySorted_group_keys (g : DataFrameGroupBy) :
  StronglySorted cell_le (group_keys g).
Proof. apply StronglySorted_merge_sort; apply _. Qed.

Lemma length_group_keys (g : DataFrameGroupBy) :
  length (group_keys g) = length (remove_dups (key_values g)).
Proof. unfold group_keys. by rewrite merge_sort_Permutation. Qed.

Lemma group_sum_key (g : DataFrameGroupBy) (k : cell) (e : cell * list cell) :
  group_sum g k = Ok e → e.1 = k.
Proof.
  unfold group_sum. destruct (traverse _ _); simpl; [|done]. by intros [= <-].
Qed.

Lemma traverse_group_sum_keys (g : DataFrameGroupBy) (ks : list cell)
    (es : list (cell * list cell)) :
  traverse (group_sum g) ks = Ok es → es.*1 = ks.
Proof.
  rewrite traverse_Ok. induction 1 as [|k e ks es He _ IH]; simpl; [done |].
  f_equal; [by eapply group_sum_key | done].
Qed.

(** ** Sorting an index that is already in order *)

Lemma StronglySorted_entries (es : list (cell * list cell)) :
  StronglySorted cell_le es.*1 → StronglySorted entry_le es.
Proof.
  induction es as [|e es IH]; simpl; [constructor |].
  intros Hs. apply StronglySorted_inv in Hs as [Hs Hall].
  constructor; [by apply IH |].
  rewrite Forall_fmap in Hall. done.
Qed.

Lemma entries_same_key (es : list (cell * list cell)) (e1 e2 : cell * list cell) :
  NoDup es.*1 → e1 ∈ es → e2 ∈ es → e1.1 = e2.1 → e1 = e2.
Proof.
  induction es as [|e es IH]; simpl; [by inversion 2 |].
  intros Hnd H1 H2 Heq. apply NoDup_cons in Hnd as [Hnotin Hnd].
  apply elem_of_cons in H1 as [->|H1], H2 as [->|H2]; [done | | | by apply IH].
  - exfalso. apply Hnotin. rewrite Heq. by apply (list_elem_of_fmap_2 fst).
  - exfalso. apply Hnotin. rewrite <-Heq. by apply (list_elem_of_fmap_2 fst).
Qed.

Lemma merge_sort_entries_id (es : list (cell * list cell)) :
  StronglySorted cell_le es.*1 → NoDup es.*1 → merge_sort entry_le es = es.
Proof.
  intros Hs Hnd.
  apply (StronglySorted_unique_strong entry_le).
  - intros e1 e2 H1 H2 H12 H21.
    rewrite merge_sort_Permutation in H1.
    apply (entries_same_key es); [done..|].
    by apply (anti_symm cell_le).
  - apply StronglySorted_merge_sort; apply _.
  - by apply StronglySorted_entries.
  - apply merge_sort_Permutation.
Qed.

(** ** The aggregation, step by step *)

Lemma filter_empty_iff {A} (P : A → Prop) `{∀ x, Decision (P x)} (l : list A) :
  filter P l = [] ↔ Forall (λ x, ¬ P x) l.
Proof.
  induction l as [|x l IH]; [by split; [constructor|] |].
  rewrite filter_cons. destruct (decide (P x)) as [Hx|Hx].
  - split; [done |]. by inversion 1.
  - rewrite IH. split; [by constructor | by inversion 1].
Qed.

Lemma has_columns_spec (df : DataFrame) :
  has_columns df = true ↔ "Semana" ∈ columns df ∧ Forall (.∈ columns df) METRICS.
Proof.
  unfold has_columns. simpl. rewrite !andb_true_iff, !bool_decide_eq_true.
  split.
  - intros (? & ? & ? & ? & ? & _). split; [done |]. by repeat constructor.
  - intros [? HM]. inversion_clear HM as [|? ? ? HM1].
    inversion_clear HM1 as [|? ? ? HM2]. inversion_clear HM2 as [|? ? ? HM3].
    inversion_clear HM3. done.
Qed.

Lemma select_metrics_Ok (df : DataFrame) :
  has_columns df = true → select_metrics df = Ok (grouped df).
Proof.
  rewrite has_columns_spec. intros [Hw HM].
  unfold select_metrics, groupby. rewrite decide_True by done. simpl.
  unfold getitem. simpl.
  assert (filter (λ c, c ∉ columns df) METRICS = []) as ->; [|done].
  apply filter_empty_iff. eapply Forall_impl; [exact HM |]. naive_solver.
Qed.

Lemma select_metrics_Raise (df : DataFrame) :
  has_columns df = false →
  ∃ cols, cols ≠ [] ∧ Forall (.∉ columns df) cols ∧
          select_metrics df = Raise (KeyError cols).
Proof.
  intros Hno. unfold select_metrics, groupby.
  destruct (decide ("Semana" ∈ columns df)) as [Hw|Hw]; simpl.
  - unfold getitem. simpl.
    destruct (filter (λ c, c ∉ columns df) METRICS) as [|c bad] eqn:Hbad.
    + exfalso. apply filter_empty_iff in Hbad.
      assert (has_columns df = true); [|congruence].
      apply has_columns_spec. split; [done |].
      eapply Forall_impl; [exact Hbad |]. intros c Hc. simpl in Hc.
      by destruct (decide (c ∈ columns df)).
    + exists (c :: bad). split; [done |]. split; [|done].
      rewrite <-Hbad. apply Forall_forall. intros c' Hc'.
      by apply list_elem_of_filter in Hc' as [? _].
  - exists ["Semana"]. split; [done |]. split; [|done]. by repeat constructor.
Qed.

Lemma select_metrics_inv (df : DataFrame) (g : DataFrameGroupBy) :
  select_metrics df = Ok g → has_columns df = true ∧ g = grouped df.
Proof.
  intros Hg. destruct (has_columns df) eqn:Hc.
  - rewrite select_metrics_Ok in Hg by done. split; congruence.
  - destruct (select_metrics_Raise df Hc) as (cols & _ & _ & Hr). congruence.
Qed.

Lemma comparable_subseteq (ks ks' : list cell) :
  ks' ⊆ ks → comparable ks = true → comparable ks' = true.
Proof.
  unfold comparable. rewrite !orb_true_iff, !forallb_forall.
  intros Hsub [H|H]; [left | right]; intros k Hk; apply H;
    apply list_elem_of_In, Hsub, list_elem_of_In, Hk.
Qed.


Lemma StronglySorted_py_lt (ks : list cell) :
  comparable ks = true → NoDup ks → StronglySorted cell_le ks →
  StronglySorted py_lt ks.
Proof.
  intros Hc Hnd Hs. induction Hs as [|k ks Hs IH Hall]; [constructor |].
  apply NoDup_cons in Hnd as [Hk Hnd].
  constructor.
  - apply IH; [|done]. eapply comparable_subseteq; [|exact Hc].
    intros x Hx. by right.
  - apply Forall_forall. intros x Hx.
    rewrite Forall_forall in Hall.
    apply py_lt_of_le; [| by apply Hall | by intros ->].
    revert Hc. unfold comparable. rewrite orb_true_iff, !forallb_forall.
    intros [H|H].
    + rewrite !H; [done | apply list_elem_of_In; by right | by left].
    + assert (is_str k = true) as Hk' by (apply H; by left).
      assert (is_str x = true) as Hx' by (apply H, list_elem_of_In; by right).
      by destruct k, x.
Qed.


Lemma weekly_inv (df : DataFrame) (t : Weekly) :
  weekly df = Ok t →
  has_columns df = true ∧
  comparable (group_keys (grouped df)) = true ∧
  traverse (group_sum (grouped df)) (group_keys (grouped df)) = Ok (entries t) ∧
  value_columns t = METRICS.
Proof.
  unfold weekly. destruct (select_metrics df) as [g|e] eqn:Hg; simpl; [|done].
  apply select_metrics_inv in Hg as [Hc ->].
  unfold groupby_sum.
  destruct (traverse _ _) as [es|e] eqn:Hes; simpl; [|done].
  pose proof (traverse_group_sum_keys _ _ _ Hes) as Hkeys.
  unfold sort_index, index. simpl. rewrite Hkeys.
  destruct (comparable _) eqn:Hcmp; [|done].
  intros [= <-]. simpl.
  rewrite merge_sort_entries_id.
  - done.
  - rewrite Hkeys. apply StronglySorted_group_keys.
  - rewrite Hkeys. apply NoDup_group_keys.
Qed.

Lemma index_weekly (df : DataFrame) (t : Weekly) :
  weekly df = Ok t → index t = group_keys (grouped df).
Proof.
  intros (_ & _ & Hes & _)%weekly_inv. by apply traverse_group_sum_keys in Hes.
Qed.

Lemma numeric_metrics_spec (df : DataFrame) :
  numeric_metrics df = true ↔
  ∀ r m, r ∈ rows df → m ∈ METRICS → is_int (r m) = true.
Proof.
  unfold numeric_metrics. rewrite forallb_forall. split.
  - intros H r m Hr Hm. apply list_elem_of_In in Hr, Hm.
    specialize (H r Hr). rewrite forallb_forall in H. by apply H.
  - intros H r Hr. apply forallb_forall. intros m Hm.
    apply H; by apply list_elem_of_In.
Qed.

Lemma cells_of_week_numeric (df : DataFrame) (w : cell) (m : string) :
  numeric_metrics df = true → m ∈ METRICS →
  forallb is_int (cells_of_week df w m) = true.
Proof.
  rewrite numeric_metrics_spec. intros H Hm.
  apply forallb_forall. intros c Hc. apply list_elem_of_In in Hc.
  unfold cells_of_week in Hc.
  apply list_elem_of_fmap in Hc as (r & -> & Hr).
  apply list_elem_of_filter in Hr as [_ Hr]. by apply H.
Qed.

Lemma weekly_of_entries (df : DataFrame) (es : list (cell * list cell)) :
  has_columns df = true →
  traverse (group_sum (grouped df)) (group_keys (grouped df)) = Ok es →
  comparable (group_keys (grouped df)) = true →
  weekly df = Ok {| value_columns := METRICS; entries := es |}.
Proof.
  intros Hc Hes Hcmp. unfold weekly. rewrite select_metrics_Ok by done. simpl.
  unfold groupby_sum. rewrite Hes. simpl.
  pose proof (traverse_group_sum_keys _ _ _ Hes) as Hkeys.
  unfold sort_index, index. simpl. rewrite Hkeys, Hcmp.
  rewrite merge_sort_entries_id; [done | |]; rewrite Hkeys;
    [apply StronglySorted_group_keys | apply NoDup_group_keys].
Qed.

Lemma group_sum_numeric (df : DataFrame) (w : cell) :
  numeric_metrics df = true →
  group_sum (grouped df) w = Ok (w, week_total df w <$> METRICS).
Proof.
  intros Hn. unfold group_sum.
  change (selection (grouped df)) with METRICS.
  rewrite (traverse_fmap _ (week_total df w)); [done |].
  intros m Hm.
  change ((λ r : row, r m) <$> group_rows (grouped df) w)
    with (cells_of_week df w m).
  rewrite (ints_of_cells (cells_of_week df w m))
    by (by apply cells_of_week_numeric).
  by rewrite column_sum_ints.
Qed.

Lemma weekly_numeric (df : DataFrame) :
  has_columns df = true → numeric_metrics df = true →
  comparable_weeks df = true → weekly df = Ok (week_totals df).
Proof.
  intros Hc Hn Hw. apply weekly_of_entries; [done | |].
  - apply traverse_fmap. intros w _. by apply group_sum_numeric.
  - eapply comparable_subseteq; [|exact Hw].
    intros k Hk. by apply elem_of_group_keys in Hk.
Qed.

(** ** Reading the aggregated table *)


Lemma column_pos_elem_of (t : Weekly) (m : string) :
  m ∈ value_columns t →
  ∃ i, column_pos t m = Some i ∧ value_columns t !! i = Some m.
Proof.
  intros Hm. unfold column_pos.
  destruct (list_find_elem_of (λ c, c = m) (value_columns t) m Hm eq_refl)
    as [[i c] Hfind].
  rewrite Hfind. exists i. split; [done |].
  apply list_find_Some in Hfind as (Hi & -> & _). done.
Qed.


Lemma getcolumn_week_totals (df : DataFrame) (m : string) :
  m ∈ METRICS →
  getcolumn (week_totals df) m
  = Ok ((λ w, week_total df w m) <$> group_keys (grouped df)).
Proof.
  intros Hm. unfold getcolumn.
  destruct (column_pos_elem_of (week_totals df) m Hm) as (i & -> & Hi).
  cbn [value_columns week_totals] in Hi. f_equal.
  unfold week_totals. cbn [entries].
  induction (group_keys (grouped df)) as [|k ks IH]; [done |].
  rewrite !fmap_cons. cbn [omap list_omap snd]. rewrite list_lookup_fmap, Hi.
  cbn [fmap option_fmap option_map]. by rewrite <-IH.
Qed.

Lemma index_week_totals (df : DataFrame) :
  index (week_totals df) = group_keys (grouped df).
Proof.
  unfold index, week_totals. cbn [entries]. rewrite <-list_fmap_compose.
  rewrite <-(list_fmap_id (group_keys (grouped df))) at 2.
  by apply list_fmap_ext.
Qed.

(** ** The aggregation (claims C1, C2, C10) *)





Lemma int64_metrics_spec (df : DataFrame) :
  int64_metrics df = true ↔
  ∀ r m, r ∈ rows df → m ∈ METRICS → cell_in in_int64 (r m) = true.
Proof.
  unfold int64_metrics. rewrite forallb_forall. split.
  - intros H r m Hr Hm. apply list_elem_of_In in Hr, Hm.
    specialize (H r Hr). rewrite forallb_forall in H. by apply H.
  - intros H r Hr. apply forallb_forall. intros m Hm.
    apply H; by apply list_elem_of_In.
Qed.

Lemma int64_metrics_numeric (df : DataFrame) :
  int64_metrics df = true → numeric_metrics df = true.
Proof.
  rewrite int64_metrics_spec, numeric_metrics_spec. intros H r m Hr Hm.
  specialize (H r m Hr Hm). by destruct (r m).
Qed.

Lemma int64_metrics_dtype (df : DataFrame) (m : string) :
  int64_metrics df = true → m ∈ METRICS →
  infer_dtype (column_cells df m) = Int64.
Proof.
  rewrite int64_metrics_spec. intros H Hm. unfold infer_dtype.
  assert (forallb (cell_in in_int64) (column_cells df m) = true) as ->; [|done].
  apply forallb_forall. intros c Hc. apply list_elem_of_In in Hc.
  unfold column_cells in Hc. apply list_elem_of_fmap in Hc as (r & -> & Hr).
  by apply H.
Qed.

Lemma int64_metrics_Permutation (df df' : DataFrame) :
  rows df' ≡ₚ rows df → int64_metrics df = true → int64_metrics df' = true.
Proof.
  rewrite !int64_metrics_spec. intros Hp H r m Hr Hm.
  apply H; [by rewrite <-Hp | done].
Qed.

Lemma int_of_CInt (zs : list Z) : int_of <$> (CInt <$> zs) = zs.
Proof.
  rewrite <-list_fmap_compose. rewrite <-(list_fmap_id zs) at 2.
  by apply list_fmap_ext.
Qed.


(** C2. The aggregated table has one row per distinct week of the input:
    as many rows as there are distinct week values, no week twice, exactly
    the weeks that occur, and in strictly ascending order. *)
Theorem weekly_one_row_per_week (df : DataFrame) (t : Weekly) :
  weekly df = Ok t →
  length (entries t) = length (remove_dups (weeks df)) ∧
  NoDup (index t) ∧
  (∀ w, w ∈ index t ↔ w ∈ weeks df) ∧
  StronglySorted py_lt (index t).
Proof.
  intros Ht. pose proof (index_weekly df t Ht) as Hidx.
  apply weekly_inv in Ht as (_ & Hcmp & _ & _).
  split; [|split; [|split]].
  - rewrite <-(length_fmap fst). fold (index t). rewrite Hidx.
    apply length_group_keys.
  - rewrite Hidx. apply NoDup_group_keys.
  - intros w. rewrite Hidx. apply elem_of_group_keys.
  - rewrite Hidx. apply StronglySorted_py_lt;
      [done | apply NoDup_group_keys | apply StronglySorted_group_keys].
Qed.

Lemma cells_agree (c k : string) (w : cell) (rs1 rs2 : list row) :
  Forall2 (λ r1 r2 : row, r1 k = r2 k ∧ r1 c = r2 c) rs1 rs2 →
  (λ r : row, r c) <$> filter (λ r : row, r k = w) rs1
  = (λ r : row, r c) <$> filter (λ r : row, r k = w) rs2.
Proof.
  induction 1 as [|r1 r2 rs1 rs2 [Hk Hc] _ IH]; [done |].
  rewrite !filter_cons, <-Hk.
  destruct (decide (r1 k = w)); [|done].
  rewrite !fmap_cons. by rewrite IH, Hc.
Qed.

Lemma weekly_agree (df1 df2 : DataFrame) :
  has_columns df1 = true → has_columns df2 = true →
  Forall2 (λ r1 r2 : row, ∀ c, c ∈ "Semana" :: METRICS → r1 c = r2 c)
          (rows df1) (rows df2) →
  weekly df1 = weekly df2.
Proof.
  intros H1 H2 Hrows. unfold weekly. rewrite !select_metrics_Ok by done.
  cbn [mbind result_bind]. f_equal. unfold groupby_sum.
  assert (group_keys (grouped df1) = group_keys (grouped df2)) as Hkeys.
  { unfold group_keys, key_values. do 2 f_equal. cbn [obj by_ grouped].
    clear H1 H2. induction Hrows as [|r1 r2 rs1 rs2 Hr _ IH]; [done |].
    rewrite !fmap_cons. f_equal; [|done]. apply Hr. by left. }
  rewrite Hkeys.
  rewrite (traverse_ext (group_sum (grouped df1)) (group_sum (grouped df2)));
    [done |].
  intros k _. unfold group_sum. change (selection (grouped df1)) with METRICS.
  change (selection (grouped df2)) with METRICS.
  rewrite (traverse_ext _
    (λ c, column_sum (infer_dtype (column_cells (obj (grouped df2)) c))
                     ((λ r : row, r c) <$> group_rows (grouped df2) k)));
    [done |].
  intros m Hm. cbn [obj grouped]. f_equal.
  - f_equal. unfold column_cells. clear H1 H2 Hkeys.
    induction Hrows as [|r1 r2 rs1 rs2 Hr _ IH]; [done |].
    rewrite !fmap_cons. f_equal; [|done]. apply Hr. by right.
  - unfold group_rows. cbn [obj by_ grouped].
    apply cells_agree. eapply Forall2_impl; [exact Hrows |].
    intros r1 r2 Hr. split; apply Hr; [by left | by right].
Qed.

(** ** Missing columns (claims C3, C4) *)

Lemma has_columns_false (df : DataFrame) :
  "Semana" ∉ columns df ∨ (∃ m, m ∈ METRICS ∧ m ∉ columns df) →
  has_columns df = false.
Proof.
  intros H. destruct (has_columns df) eqn:Hc; [|done].
  apply has_columns_spec in Hc as [Hw HM]. destruct H as [H|(m & Hm & H)]; [done |].
  rewrite Forall_forall in HM. by apply HM in Hm.
Qed.

Lemma weekly_Raise (df : DataFrame) (e : exception) :
  select_metrics df = Raise e → weekly df = Raise e.
Proof. unfold weekly. by intros ->. Qed.

Lemma plot_projections_Raise (B : Backend) (df : DataFrame) (output : Path)
    (w : World) (e : exception) :
  weekly df = Raise e → plot_projections B df output w = (Raise e, w).
Proof.
  intros He. unfold plot_projections. run_io. by rewrite He.
Qed.

(** C3. When the week column or one of the four metric columns is absent,
    [plot_projections] raises [KeyError] (naming absent columns) and the
    world it leaves is the world it was given: no directory is made and no
    file is written. *)
Theorem missing_column_raises_and_writes_nothing (B : Backend)
    (df : DataFrame) (output : Path) (w : World) :
  "Semana" ∉ columns df ∨ (∃ m, m ∈ METRICS ∧ m ∉ columns df) →
  ∃ cols, cols ≠ [] ∧ Forall (.∉ columns df) cols ∧
          plot_projections B df output w = (Raise (KeyError cols), w).
Proof.
  intros H%has_columns_false.
  destruct (select_metrics_Raise df H) as (cols & Hne & Hcols & Hsel).
  exists cols. split; [done |]. split; [done |].
  by apply plot_projections_Raise, weekly_Raise.
Qed.

(** C4, as amended. When one of the four metric columns is absent, the
    operation fails before the aggregation step: the selection of the
    columns raises [KeyError], and so does the whole aggregation. *)
Theorem absent_metric_fails_before_aggregation (df : DataFrame) :
  (∃ m, m ∈ METRICS ∧ m ∉ columns df) →
  fails_before_aggregation df ∧
  ∃ cols, select_metrics df = Raise (KeyError cols) ∧
          weekly df = Raise (KeyError cols).
Proof.
  intros H. destruct (select_metrics_Raise df) as (cols & _ & _ & Hsel).
  { apply has_columns_false. by right. }
  split; [by eexists |]. exists cols. split; [done |]. by apply weekly_Raise.
Qed.

(** ** The loader (claims C5, C9) *)

Lemma choose_reader_csv (path : Path) :
  choose_reader path = ReadCsv ↔ lower (suffix path) = ".csv".
Proof. unfold choose_reader. case_decide; naive_solver. Qed.

Lemma choose_reader_excel (path : Path) :
  choose_reader path = ReadExcel ↔ lower (suffix path) ≠ ".csv".
Proof. unfold choose_reader. case_decide; naive_solver. Qed.

(** Which texts lower to [".csv"]: the eight spellings of the extension. *)
Lemma lower_ascii_dot (a : ascii) : lower_ascii a = "."%char → a = "."%char.
Proof. destruct a as [[] [] [] [] [] [] [] []]; vm_compute; congruence. Qed.

Lemma lower_ascii_c (a : ascii) :
  lower_ascii a = "c"%char → a = "c"%char ∨ a = "C"%char.
Proof. destruct a as [[] [] [] [] [] [] [] []]; vm_compute; intros; try congruence; auto. Qed.

Lemma lower_ascii_s (a : ascii) :
  lower_ascii a = "s"%char → a = "s"%char ∨ a = "S"%char.
Proof. destruct a as [[] [] [] [] [] [] [] []]; vm_compute; intros; try congruence; auto. Qed.

Lemma lower_ascii_v (a : ascii) :
  lower_ascii a = "v"%char → a = "v"%char ∨ a = "V"%char.
Proof. destruct a as [[] [] [] [] [] [] [] []]; vm_compute; intros; try congruence; auto. Qed.

Lemma lower_csv (s : string) :
  lower s = ".csv" ↔
  s ∈ [".csv"; ".csV"; ".cSv"; ".cSV"; ".Csv"; ".CsV"; ".CSv"; ".CSV"].
Proof.
  split.
  - destruct s as [|a [|b [|c [|d [|e s]]]]]; try done.
    simpl. intros [= Ha Hb Hc Hd].
    apply lower_ascii_dot in Ha. apply lower_ascii_c in Hb.
    apply lower_ascii_s in Hc. apply lower_ascii_v in Hd.
    destruct Hb, Hc, Hd; subst; set_solver.
  - intros Hs. repeat (apply elem_of_cons in Hs as [->|Hs]; [done |]).
    by apply elem_of_nil in Hs.
Qed.

(** C5, as amended. [load_dataset] reads the file as comma-separated
    values exactly when the extension of the path, lowered, is [".csv"],
    and as a spreadsheet for every other extension; [".txt"] or no
    extension at all fall to the spreadsheet reader. *)
Theorem load_dataset_dispatch (B : Backend) (path : Path) :
  (choose_reader path = ReadCsv ↔ lower (suffix path) = ".csv") ∧
  (choose_reader path = ReadExcel ↔ lower (suffix path) ≠ ".csv") ∧
  load_dataset B path =
    (if decide (lower (suffix path) = ".csv")
     then read_csv B path else read_excel B path).
Proof.
  split; [apply choose_reader_csv |]. split; [apply choose_reader_excel |].
  unfold load_dataset, choose_reader. by case_decide.
Qed.

(** C9. The test on the extension ignores case: a path whose extension
    lowers to [".csv"], such as [".CSV"] or [".Csv"], is read as
    comma-separated values and not as a spreadsheet. *)
Theorem load_dataset_extension_case_insensitive (B : Backend) (path : Path) :
  lower (suffix path) = ".csv" →
  choose_reader path = ReadCsv ∧
  choose_reader path ≠ ReadExcel ∧
  load_dataset B path = read_csv B path.
Proof.
  intros H.
  assert (choose_reader path = ReadCsv) as Hr by (by apply choose_reader_csv).
  split; [done |]. split; [by rewrite Hr |]. unfold load_dataset. by rewrite Hr.
Qed.

(** ** The file system *)

Lemma tree_closed_spec (w : World) : tree_closed w = true ↔ closed w.
Proof.
  unfold tree_closed, closed. rewrite forallb_forall. split.
  - intros H l n Hl.
    specialize (H (l, n)). simpl in H.
    destruct (stat w (removelast l)) as [[|d]|]; try done;
      exfalso; (assert (false = true) as Hf; [|done]);
      apply H, list_elem_of_In, elem_of_map_to_list, Hl.
  - intros H [l n] Hin. simpl.
    apply list_elem_of_In, elem_of_map_to_list in Hin.
    by rewrite (H l n Hin).
Qed.

Lemma stat_snoc (w : World) (l : list string) (x : string) :
  stat w (l ++ [x]) = files w !! (l ++ [x]).
Proof. by destruct l. Qed.

Lemma stat_insert_ne (w : World) (l p : list string) (n : node) :
  p ≠ l → stat (with_files <[l := n]> w) p = stat w p.
Proof.
  intros Hne. destruct p as [|x p]; [done |]. simpl. by rewrite lookup_insert_ne.
Qed.

Lemma stat_insert_eq (w : World) (l : list string) (x : string) (n : node) :
  stat (with_files <[l ++ [x] := n]> w) (l ++ [x]) = Some n.
Proof. rewrite stat_snoc. simpl. by rewrite lookup_insert_eq. Qed.

(** In a closed world, what lies above an entry is a directory. *)
Lemma prefixes_are_dirs (w : World) (l : list string) :
  closed w → is_Some (stat w l) →
  ∀ k, (k < length l)%nat → stat w (take k l) = Some Dir.
Proof.
  intros Hcl. induction l as [|x l IH] using rev_ind; [simpl; lia |].
  intros [n Hn] k Hk. rewrite stat_snoc in Hn.
  pose proof (Hcl _ _ Hn) as Hl. rewrite removelast_last in Hl.
  rewrite length_app in Hk. simpl in Hk.
  destruct (decide (k = length l)) as [->|Hne].
  - by rewrite take_app_length.
  - rewrite take_app_le by lia. apply IH; [by eexists | lia].
Qed.

Lemma existsb_false {A} (f : A → bool) (l : list A) :
  existsb f l = false ↔ ∀ x, x ∈ l → f x = false.
Proof.
  induction l as [|y l IH]; simpl.
  - split; [by intros _ x Hx%elem_of_nil | done].
  - rewrite orb_false_iff, IH. split.
    + intros [Hy Hl] x [->|Hx]%elem_of_cons; auto.
    + intros H. split; [apply H; by left | intros x Hx; apply H; by right].
Qed.

Lemma blocked_false (w : World) (l : list string) :
  blocked w l = false ↔
  ∀ k d, (k < length l)%nat → stat w (take k l) ≠ Some (File d).
Proof.
  unfold blocked. rewrite existsb_false. split.
  - intros H k d Hk Hst. specialize (H k). rewrite Hst in H.
    assert (true = false); [|done]. apply H.
    apply list_elem_of_In, in_seq. lia.
  - intros H k Hk. apply list_elem_of_In, in_seq in Hk.
    destruct (stat w (take k l)) as [[|d]|] eqn:Hst; try done.
    exfalso. apply (H k d); [lia | done].
Qed.

Lemma dir_not_blocked (w : World) (l : list string) :
  closed w → stat w l = Some Dir → blocked w l = false.
Proof.
  intros Hcl Hl. apply blocked_false. intros k d Hk.
  by rewrite (prefixes_are_dirs w l Hcl) by (by eexists || done).
Qed.

Lemma under_dir_not_blocked (w : World) (l : list string) (x : string) :
  closed w → stat w l = Some Dir → blocked w (l ++ [x]) = false.
Proof.
  intros Hcl Hl. apply blocked_false. intros k d Hk.
  rewrite length_app in Hk. simpl in Hk.
  destruct (decide (k = length l)) as [->|Hne].
  - rewrite take_app_length. by rewrite Hl.
  - rewrite take_app_le by lia.
    by rewrite (prefixes_are_dirs w l Hcl) by (by eexists || lia).
Qed.

Lemma closed_insert_dir (w : World) (l : list string) (x : string) :
  closed w → stat w l = Some Dir →
  closed (with_files <[l ++ [x] := Dir]> w).
Proof.
  intros Hcl Hl q n Hq. simpl in Hq.
  destruct (decide (removelast q = l ++ [x])) as [->|Hne].
  { apply stat_insert_eq. }
  rewrite stat_insert_ne by done.
  apply lookup_insert_Some in Hq as [[<- _]|[_ Hq]].
  - by rewrite removelast_last.
  - by eapply Hcl.
Qed.

(** [os.mkdir] where the directory is already there, and where only its
    last name is missing. *)
Lemma os_mkdir_exists (w : World) (l : list string) :
  closed w → stat w l = Some Dir →
  os_mkdir l w = (Raise FileExistsError, w) ∧ is_dir w l = true.
Proof.
  intros Hcl Hl. unfold os_mkdir, is_dir.
  by rewrite (dir_not_blocked w l Hcl Hl), Hl.
Qed.

Lemma os_mkdir_new (w : World) (l : list string) (x : string) :
  closed w → stat w l = Some Dir → stat w (l ++ [x]) = None →
  os_mkdir (l ++ [x]) w = (Ok (), with_files <[l ++ [x] := Dir]> w).
Proof.
  intros Hcl Hl Hx. unfold os_mkdir.
  by rewrite (under_dir_not_blocked w l x Hcl Hl), Hx, removelast_last, Hl.
Qed.

Lemma adds_dirs_refl (w : World) (l : list string) : adds_dirs w w l.
Proof. repeat split. by left. Qed.

Lemma adds_dirs_insert (w w1 : World) (l : list string) (x : string) :
  adds_dirs w w1 l → stat w1 (l ++ [x]) = None →
  adds_dirs w (with_files <[l ++ [x] := Dir]> w1) (l ++ [x]).
Proof.
  intros (Hcwd & Hout & Hst) Hx. split; [done |]. split; [done |].
  intros p. destruct (decide (p = l ++ [x])) as [->|Hne].
  - right. rewrite stat_insert_eq. split; [|done].
    destruct (Hst (l ++ [x])) as [<-|(? & ? & _)]; [done | congruence].
  - rewrite stat_insert_ne by done.
    destruct (Hst p) as [?|(? & ? & ?)]; [by left | right].
    split; [done |]. split; [done |]. by apply prefix_app_r.
Qed.

Lemma mkdir_parents_spec (base rnames : list string) (w : World) :
  closed w → stat w base = Some Dir →
  (∀ k d, stat w (take k (base ++ reverse rnames)) ≠ Some (File d)) →
  ∃ w', mkdir_parents base rnames true w = (Ok (), w') ∧
        closed w' ∧ stat w' (base ++ reverse rnames) = Some Dir ∧
        adds_dirs w w' (base ++ reverse rnames).
Proof.
  revert w. induction rnames as [|x rparent IH]; intros w Hcl Hbase Hfree.
  - cbn [mkdir_parents reverse]. rewrite app_nil_r in *.
    destruct (os_mkdir_exists w base Hcl Hbase) as [-> Hdir].
    cbn. rewrite Hdir. exists w. by auto using adds_dirs_refl.
  - assert (base ++ reverse (x :: rparent) = (base ++ reverse rparent) ++ [x])
      as Hl by (by rewrite reverse_cons, (assoc_L (++))).
    cbn [mkdir_parents]. rewrite Hl in *.
    set (l' := base ++ reverse rparent) in *.
    destruct (stat w (l' ++ [x])) as [[|d]|] eqn:Hx.
    + destruct (os_mkdir_exists w _ Hcl Hx) as [-> Hdir].
      cbn. rewrite Hdir. exists w. by auto using adds_dirs_refl.
    + exfalso. apply (Hfree (length (l' ++ [x])) d). by rewrite take_ge.
    + assert (∀ k d, stat w (take k l') ≠ Some (File d)) as Hfree'.
      { intros k d. destruct (decide (k ≤ length l')%nat).
        - rewrite <-(take_app_le l' [x]) by done. apply Hfree.
        - rewrite take_ge by lia. rewrite <-(take_app_length l' [x]).
          apply Hfree. }
      destruct (stat w l') as [[|d]|] eqn:Hl'.
      * rewrite (os_mkdir_new w l' x) by done.
        eexists. split; [done |].
        split; [by apply closed_insert_dir |].
        split; [apply stat_insert_eq |].
        apply adds_dirs_insert; [apply adds_dirs_refl | done].
      * exfalso. apply (Hfree' (length l') d). by rewrite take_ge.
      * assert (os_mkdir (l' ++ [x]) w = (Raise FileNotFoundError, w)) as ->.
        { unfold os_mkdir.
          assert (blocked w (l' ++ [x]) = false) as ->.
          { apply blocked_false. intros k d _. apply Hfree. }
          by rewrite Hx, removelast_last, Hl'. }
        destruct (IH w Hcl Hbase Hfree') as (w1 & Hrun & Hcl1 & Hdir1 & Hadd1).
        fold l' in Hrun, Hdir1, Hadd1.
        run_io. rewrite Hrun.
        assert (stat w1 (l' ++ [x]) = None) as Hx1.
        { destruct Hadd1 as (_ & _ & Hst).
          destruct (Hst (l' ++ [x])) as [->|(_ & _ & Hpre)]; [done |].
          apply prefix_length in Hpre. rewrite length_app in Hpre.
          simpl in Hpre. lia. }
        unfold mkdir_once. rewrite (os_mkdir_new w1 l' x) by done.
        eexists. split; [done |].
        split; [by apply closed_insert_dir |].
        split; [apply stat_insert_eq |].
        by apply adds_dirs_insert.
Qed.

(** ** Drawing and saving *)

Lemma plot_comparable (cs : list cell) :
  comparable cs = true → update_units cs = Ok () ∧ to_float_array cs = Ok ().
Proof.
  destruct cs as [|[z|x] cs]; [done | |];
    unfold comparable, update_units, to_float_array;
    cbn [forallb is_int is_str andb orb].
  - rewrite orb_false_r. by intros ->.
  - by intros ->.
Qed.

Lemma traverse_exists {A B} (f : A → result B) (l : list A) :
  (∀ x, x ∈ l → ∃ y, f x = Ok y) → ∃ ys, traverse f l = Ok ys.
Proof.
  induction l as [|x l IH]; intros H; [by eexists |].
  destruct (H x) as [y Hy]; [by left |].
  destruct IH as [ys Hys]; [intros; apply H; by right |].
  exists (y :: ys). cbn [traverse]. by rewrite Hy, Hys.
Qed.

(** The weekly table of a numeric table is drawn: its weeks are of one
    kind and its columns hold numbers only. *)
Lemma draw_week_totals (df : DataFrame) :
  comparable (group_keys (grouped df)) = true →
  ∃ fig, draw (week_totals df) = Ok fig.
Proof.
  intros Hcmp. apply traverse_exists. intros [m ttl] Hin.
  apply elem_of_zip_l in Hin. unfold plot_metric. cbn [fst snd].
  rewrite getcolumn_week_totals by done. cbn [mbind result_bind].
  rewrite index_week_totals.
  destruct (plot_comparable _ Hcmp) as [-> ->].
  destruct (plot_comparable ((λ w, week_total df w m) <$> group_keys (grouped df)))
    as [-> ->]; [|by eexists].
  unfold comparable. apply orb_true_iff. left. apply forallb_forall.
  intros c Hc. apply list_elem_of_In, list_elem_of_fmap in Hc as (k & -> & _).
  done.
Qed.

Lemma numeric_drawn (df : DataFrame) :
  has_columns df = true → numeric_metrics df = true →
  comparable_weeks df = true →
  ∃ fig, weekly df = Ok (week_totals df) ∧ draw (week_totals df) = Ok fig.
Proof.
  intros Hc Hn Hw. destruct (draw_week_totals df) as [fig Hfig].
  - eapply comparable_subseteq; [|exact Hw].
    intros k Hk. by apply elem_of_group_keys in Hk.
  - exists fig. split; [by apply weekly_numeric | done].
Qed.

Lemma int64_table_spec (df : DataFrame) :
  int64_table df = true →
  has_columns df = true ∧ int64_metrics df = true ∧
  comparable_weeks df = true.
Proof.
  unfold int64_table. rewrite !andb_true_iff, forallb_forall.
  intros [[_ Hc] H]. split; [done |]. split.
  - apply int64_metrics_spec. intros r m Hr Hm.
    specialize (H r (proj1 (list_elem_of_In _ _) Hr)).
    rewrite forallb_forall in H. apply H, list_elem_of_In. by right.
  - unfold comparable_weeks, comparable. apply orb_true_iff. left.
    apply forallb_forall. intros c Hc'.
    apply list_elem_of_In, list_elem_of_fmap in Hc' as (r & -> & Hr).
    specialize (H r (proj1 (list_elem_of_In _ _) Hr)).
    rewrite forallb_forall in H.
    assert (cell_in in_int64 (r "Semana") = true) as Hcell
      by (apply H, list_elem_of_In; by left).
    by destruct (r "Semana").
Qed.

(** A table of 64-bit integers is aggregated and drawn. *)
Lemma int64_table_drawn (df : DataFrame) :
  int64_table df = true →
  ∃ fig, weekly df = Ok (week_totals df) ∧ draw (week_totals df) = Ok fig.
Proof.
  intros (Hc & Hi & Hw)%int64_table_spec.
  apply numeric_drawn; [done | by apply int64_metrics_numeric | done].
Qed.

Lemma png_supported : "png" ∈ supported_filetypes.
Proof. apply (bool_decide_unpack _). reflexivity. Qed.

Lemma empty_not_supported : "" ∉ supported_filetypes.
Proof.
  unfold supported_filetypes. rewrite !not_elem_of_cons.
  repeat split; [done.. |]. apply not_elem_of_nil.
Qed.

Lemma savefig_target_supported (B : Backend) (fname : Path) :
  filetype fname ∈ supported_filetypes →
  savefig_target B fname = Ok (fname, filetype fname) ∧ parts fname ≠ [].
Proof.
  unfold filetype, savefig_target. intros H. split.
  - destruct (decide (slice_from 1 (splitext (name fname)).2 = "")) as [He|He].
    + rewrite He in H. by apply empty_not_supported in H.
    + rewrite decide_True; [done |]. apply elem_of_app. by left.
  - intros Hnil. unfold name in H. rewrite Hnil in H.
    by apply empty_not_supported in H.
Qed.

Lemma locate_parent (w : World) (p : Path) (ps : list string) (x : string) :
  parts p = ps ++ [x] →
  locate w p = locate w (parent p) ++ [x] ∧
  locate w (parent p) = (if absolute p then [] else cwd w) ++ ps.
Proof.
  intros Hp. unfold locate, parent. simpl. rewrite Hp, removelast_last.
  destruct (absolute p); simpl; [done |]. by rewrite (assoc_L (++)).
Qed.

Lemma write_bytes_under_dir (w : World) (p : Path) (l : list string)
    (x data : string) :
  closed w → locate w p = l ++ [x] → stat w l = Some Dir →
  stat w (l ++ [x]) ≠ Some Dir →
  write_bytes p data w = (Ok (), with_files <[l ++ [x] := File data]> w).
Proof.
  intros Hcl Hloc Hl Hx. unfold write_bytes. rewrite Hloc.
  rewrite (under_dir_not_blocked w l x Hcl Hl).
  destruct (stat w (l ++ [x])) as [[|d]|]; [done | done |].
  by rewrite removelast_last, Hl.
Qed.

Lemma world_ok_spec (w : World) :
  world_ok w = true ↔ closed w ∧ stat w (cwd w) = Some Dir.
Proof.
  unfold world_ok. rewrite andb_true_iff, tree_closed_spec.
  destruct (stat w (cwd w)) as [[|d]|]; split; intros [? ?]; done.
Qed.

(** A run of [plot_projections] that nothing stops, step by step. *)
Lemma plot_projections_run (B : Backend) (df : DataFrame) (output : Path)
    (w : World) (t : Weekly) (fig : Figure) :
  weekly df = Ok t →
  draw t = Ok fig →
  world_ok w = true →
  blocked w (locate w output) = false →
  stat w (locate w output) ≠ Some Dir →
  filetype output ∈ supported_filetypes →
  ∃ w1,
    mkdir (parent output) true true w = (Ok (), w1) ∧
    adds_dirs w w1 (locate w (parent output)) ∧
    (∀ k, (k < length (locate w output))%nat →
          stat w1 (take k (locate w output)) = Some Dir) ∧
    let w2 := with_files
                <[locate w output := File (print_figure B (filetype output) fig)]>
                w1 in
    savefig B fig output w1 = (Ok (), w2) ∧
    plot_projections B df output w = (Ok (), w2).
Proof.
  intros Ht Hfig [Hcl Hcwd]%world_ok_spec Hfree Hnodir Htype.
  destruct (savefig_target_supported B output Htype) as [Htarget Hparts].
  destruct (exists_last Hparts) as (ps & x & Hps).
  destruct (locate_parent w output ps x Hps) as [Hloc Hlocp].
  set (l' := locate w (parent output)) in *.
  rewrite blocked_false in Hfree.
  destruct (mkdir_parents_spec (if absolute output then [] else cwd w)
              (reverse ps) w) as (w1 & Hmk & Hcl1 & Hdir1 & Hadd).
  { done. }
  { by destruct (absolute output). }
  { rewrite reverse_involutive, <-Hlocp. intros k d.
    destruct (decide (k ≤ length l')%nat).
    - rewrite <-(take_app_le l' [x]) by done. rewrite <-Hloc.
      apply Hfree. rewrite Hloc, length_app. simpl. lia.
    - rewrite take_ge by lia. rewrite <-(take_app_length l' [x]), <-Hloc.
      apply Hfree. rewrite Hloc, length_app. simpl. lia. }
  rewrite reverse_involutive, <-Hlocp in Hdir1, Hadd.
  assert (mkdir (parent output) true true w = (Ok (), w1)) as Hmkdir.
  { unfold mkdir. cbn [parent absolute parts]. by rewrite Hps, removelast_last. }
  assert (locate w1 output = l' ++ [x]) as Hloc1.
  { destruct Hadd as (Hc & _ & _). rewrite <-Hloc. unfold locate. by rewrite Hc. }
  assert (stat w1 (l' ++ [x]) ≠ Some Dir) as Hnodir1.
  { destruct Hadd as (_ & _ & Hst).
    destruct (Hst (l' ++ [x])) as [->|(_ & _ & Hpre)]; [by rewrite <-Hloc |].
    apply prefix_length in Hpre. rewrite length_app in Hpre. simpl in Hpre. lia. }
  assert (savefig B fig output w1
          = (Ok (), with_files
               <[locate w output := File (print_figure B (filetype output) fig)]>
               w1)) as Hsave.
  { unfold savefig. run_io. rewrite Htarget. cbn [fst snd].
    rewrite Hloc. by apply write_bytes_under_dir. }
  exists w1. split; [done |]. split; [done |]. split.
  { intros k Hk. rewrite Hloc in Hk |- *. rewrite length_app in Hk. simpl in Hk.
    destruct (decide (k = length l')) as [->|Hne].
    - by rewrite take_app_length.
    - rewrite take_app_le by lia.
      apply (prefixes_are_dirs w1 l' Hcl1); [by eexists | lia]. }
  cbn zeta. split; [done |].
  unfold plot_projections. run_io.
  by rewrite Ht, Hfig, Hmkdir, Hsave.
Qed.

(** ** A missing input file (claim C6) *)

Lemma read_bytes_missing (p : Path) (w : World) :
  path_exists w (locate w p) = false →
  read_bytes p w
  = (Raise (if blocked w (locate w p)
            then NotADirectoryError else FileNotFoundError), w).
Proof.
  unfold path_exists, read_bytes.
  destruct (blocked w (locate w p)); [done |].
  by destruct (stat w (locate w p)) as [[|d]|].
Qed.

Lemma load_dataset_missing (B : Backend) (p : Path) (w : World) :
  path_exists w (locate w p) = false →
  load_dataset B p w
  = (Raise (if blocked w (locate w p)
            then NotADirectoryError else FileNotFoundError), w).
Proof.
  intros H. unfold load_dataset, run_reader, read_csv, read_excel. run_io.
  destruct (choose_reader p); by rewrite (read_bytes_missing p w H).
Qed.

(** C6. When the input path names nothing that exists, [main] raises the
    error of the failed [open] ([FileNotFoundError], or
    [NotADirectoryError] when a regular file stands on the way) and the
    world is left as it was: [plot_projections] is not reached, no
    directory is made, no file is written and nothing is printed. *)
Theorem missing_input_raises_and_writes_nothing (B : Backend)
    (input_file : Path) (output : option Path) (w : World) :
  path_exists w (locate w input_file) = false →
  ∃ e, (e = FileNotFoundError ∨ e = NotADirectoryError) ∧
       load_dataset B input_file w = (Raise e, w) ∧
       main B input_file output w = (Raise e, w).
Proof.
  intros H. pose proof (load_dataset_missing B input_file w H) as Hload.
  eexists. split; [|split; [exact Hload |]].
  - destruct (blocked w (locate w input_file)); auto.
  - unfold main. run_io. by rewrite Hload.
Qed.

(** ** Making the directories and writing the image (claims C7, C8) *)


Lemma plot_projections_agree (B : Backend) (df1 df2 : DataFrame)
    (output : Path) (w : World) :
  weekly df1 = weekly df2 →
  plot_projections B df1 output w = plot_projections B df2 output w.
Proof. intros H. unfold plot_projections. by rewrite H. Qed.



(** C10. Two tables whose rows agree on the week column and on the four
    metric columns aggregate to the same weekly table, and so are plotted
    alike: the cells of any other column, such as [FILIAL] and [SKU], and
    the presence of such columns, have no influence. *)
Theorem weekly_ignores_other_columns (df1 df2 : DataFrame) :
  has_columns df1 = true → has_columns df2 = true →
  Forall2 (λ r1 r2 : row, ∀ c, c ∈ "Semana" :: METRICS → r1 c = r2 c)
          (rows df1) (rows df2) →
  weekly df1 = weekly df2 ∧
  ∀ B output w,
    plot_projections B df1 output w = plot_projections B df2 output w.
Proof.
  intros H1 H2 Hrows.
  assert (weekly df1 = weekly df2) as Heq by (by apply weekly_agree).
  split; [done |]. intros B output w. by apply plot_projections_agree.
Qed.

(** * Examples, witnesses and counterexamples *)

Example weekly_example : weekly example_df = Ok example_weekly.
Proof. reflexivity. Qed.

(** The end-to-end example of the specification: week 1 week_totals
    15, 18, 3 and 70, and these are the points of the four subplots. *)
Example weekly_spec_example :
  weekly spec_df
  = Ok {| value_columns := METRICS;
          entries := [(CInt 1, [CInt 15; CInt 18; CInt 3; CInt 70])] |} ∧
  (t ← weekly spec_df; fig ← draw t;
   Ok ((λ ax : Axes, (xdata ax, ydata ax)) <$> (fig : list Axes)))
  = Ok [([CInt 1], [CInt 15]); ([CInt 1], [CInt 18]);
        ([CInt 1], [CInt 3]); ([CInt 1], [CInt 70])].
Proof. split; reflexivity. Qed.

(** An [int] and a [str] in one group: [sum] itself raises. *)
Example mixed_metric_raises_in_sum :
  let df := {| columns := columns text_df;
               rows := [row_of [("Semana", CInt 1); ("Venda", CInt 10)];
                        row_of [("Semana", CInt 1); ("Venda", CStr "cinco")]] |} in
  select_metrics df = Ok (grouped df) ∧ groupby_sum (grouped df) = Raise TypeError.
Proof. split; reflexivity. Qed.



Lemma weekly_one_row_per_week_witness :
  weekly example_df = Ok example_weekly ∧
  length (entries example_weekly) = length (remove_dups (weeks example_df)) ∧
  NoDup (index example_weekly) ∧
  (∀ w, w ∈ index example_weekly ↔ w ∈ weeks example_df) ∧
  StronglySorted py_lt (index example_weekly).
Proof.
  split; [reflexivity |].
  apply (weekly_one_row_per_week example_df example_weekly). reflexivity.
Defined.

Lemma missing_column_raises_and_writes_nothing_witness :
  ("Estoque" ∈ METRICS ∧ "Estoque" ∉ columns no_stock_df) ∧
  ∃ cols, cols ≠ [] ∧ Forall (.∉ columns no_stock_df) cols ∧
          plot_projections demo no_stock_df default_output home
          = (Raise (KeyError cols), home).
Proof.
  assert ("Estoque" ∈ METRICS ∧ "Estoque" ∉ columns no_stock_df) as H.
  { split; [by (right; right; right; left) |].
    apply (bool_decide_unpack _). reflexivity. }
  split; [exact H |].
  apply (missing_column_raises_and_writes_nothing demo no_stock_df
           default_output home).
  right. exists "Estoque". exact H.
Defined.

Lemma absent_metric_fails_before_aggregation_witness :
  ("Estoque" ∈ METRICS ∧ "Estoque" ∉ columns no_stock_df) ∧
  fails_before_aggregation no_stock_df ∧
  ∃ cols, select_metrics no_stock_df = Raise (KeyError cols) ∧
          weekly no_stock_df = Raise (KeyError cols).
Proof.
  assert ("Estoque" ∈ METRICS ∧ "Estoque" ∉ columns no_stock_df) as H.
  { split; [by (right; right; right; left) |].
    apply (bool_decide_unpack _). reflexivity. }
  split; [exact H |].
  apply (absent_metric_fails_before_aggregation no_stock_df).
  exists "Estoque". exact H.
Defined.

(** C4 as stated fails: the sales column of [text_df] holds text, and yet
    nothing fails before the aggregation; the aggregation is performed and
    returns the texts joined. *)
Lemma text_metric_is_aggregated :
  ("Venda" ∈ METRICS ∧
   ∃ r, r ∈ rows text_df ∧ is_int (r "Venda") = false) ∧
  ¬ fails_before_aggregation text_df ∧
  select_metrics text_df = Ok (grouped text_df) ∧
  weekly text_df
  = Ok {| value_columns := METRICS;
          entries := [(CInt 1, [CStr "dezcinco"; CInt 18; CInt 3; CInt 70])] |}.
Proof.
  split; [split; [by left |] |].
  { eexists. split; [by left | reflexivity]. }
  split; [intros [e He]; discriminate He |].
  split; reflexivity.
Qed.

(** C5 as stated fails: the extension of [DADOS.CSV] is [".CSV"], which is
    not [".csv"], and yet the file is read as comma-separated values. *)
Lemma uppercase_extension_is_read_as_csv :
  suffix (relative ["DADOS.CSV"]) = ".CSV" ∧
  suffix (relative ["DADOS.CSV"]) ≠ ".csv" ∧
  choose_reader (relative ["DADOS.CSV"]) = ReadCsv ∧
  load_dataset demo (relative ["DADOS.CSV"]) = read_csv demo (relative ["DADOS.CSV"]).
Proof. split; [reflexivity |]. split; [discriminate |]. split; reflexivity. Qed.

Lemma load_dataset_dispatch_witness :
  (choose_reader (relative ["dados.csv"]) = ReadCsv ∧
   choose_reader (relative ["dados.xlsx"]) = ReadExcel ∧
   choose_reader (relative ["notas.txt"]) = ReadExcel ∧
   choose_reader (relative ["dados"]) = ReadExcel) ∧
  load_dataset demo (relative ["notas.txt"]) = read_excel demo (relative ["notas.txt"]).
Proof.
  split.
  - split; [by apply (load_dataset_dispatch demo (relative ["dados.csv"])) |].
    split; [by apply (load_dataset_dispatch demo (relative ["dados.xlsx"])) |].
    split; [by apply (load_dataset_dispatch demo (relative ["notas.txt"])) |].
    by apply (load_dataset_dispatch demo (relative ["dados"])).
  - destruct (load_dataset_dispatch demo (relative ["notas.txt"])) as (_ & _ & H).
    exact H.
Defined.

Lemma load_dataset_extension_case_insensitive_witness :
  lower (suffix (relative ["DADOS.CSV"])) = ".csv" ∧
  lower (suffix (relative ["vendas.Csv"])) = ".csv" ∧
  choose_reader (relative ["DADOS.CSV"]) = ReadCsv ∧
  choose_reader (relative ["vendas.Csv"]) = ReadCsv ∧
  load_dataset demo (relative ["DADOS.CSV"]) = read_csv demo (relative ["DADOS.CSV"]).
Proof.
  split; [reflexivity |]. split; [reflexivity |].
  split; [apply (load_dataset_extension_case_insensitive demo
                   (relative ["DADOS.CSV"])); reflexivity |].
  split; [apply (load_dataset_extension_case_insensitive demo
                   (relative ["vendas.Csv"])); reflexivity |].
  apply (load_dataset_extension_case_insensitive demo (relative ["DADOS.CSV"])).
  reflexivity.
Defined.

Lemma missing_input_raises_and_writes_nothing_witness :
  path_exists home (locate home (relative ["nada.csv"])) = false ∧
  ∃ e, (e = FileNotFoundError ∨ e = NotADirectoryError) ∧
       load_dataset demo (relative ["nada.csv"]) home = (Raise e, home) ∧
       main demo (relative ["nada.csv"]) None home = (Raise e, home).
Proof.
  split; [reflexivity |].
  apply (missing_input_raises_and_writes_nothing demo (relative ["nada.csv"])
           None home).
  reflexivity.
Defined.

Example draw_example : draw example_weekly = Ok example_figure.
Proof. reflexivity. Qed.


(** With an extension that names no supported file type the directories
    are made and [savefig] raises: no image is written at all. *)
Example unsupported_extension_raises :
  let output := relative ["saida"; "grafico.dat"] in
  ∃ w', plot_projections demo example_df output home = (Raise ValueError, w') ∧
        stat w' (locate home (parent output)) = Some Dir ∧
        stat w' (locate home output) = None.
Proof. eexists. split; [reflexivity |]. split; reflexivity. Qed.

(** An extension that matplotlib 3.10 does not know and a later version
    does: the first raises, the second writes the image at the output
    path. *)
Example later_filetype_is_written :
  let output := relative ["saida"; "grafico.gif"] in
  plot_projections demo example_df output home = (Raise ValueError,
    (mkdir (parent output) true true home).2) ∧
  ∃ w', plot_projections demo_gif example_df output home = (Ok (), w') ∧
        stat w' (locate home output) = Some (File "image/gif").
Proof. split; [reflexivity |]. eexists. split; reflexivity. Qed.

(** A column that holds a text in one week and a number in another is
    aggregated, week by week, and then refused by [ax.plot]: the script
    raises before any directory is made. *)
Example mixed_sales_not_drawn :
  weekly mixed_sales_df
  = Ok {| value_columns := METRICS;
          entries := [(CInt 1, [CStr "dez"; CInt 12; CInt 2; CInt 50]);
                      (CInt 2, [CInt 5; CInt 6; CInt 1; CInt 20])] |} ∧
  plot_projections demo mixed_sales_df default_output home
  = (Raise TypeError, home).
Proof. split; reflexivity. Qed.



Lemma weekly_ignores_other_columns_witness :
  (has_columns spec_df = true ∧ has_columns relabelled_df = true ∧
   Forall2 (λ r1 r2 : row, ∀ c, c ∈ "Semana" :: METRICS → r1 c = r2 c)
           (rows spec_df) (rows relabelled_df)) ∧
  weekly spec_df = weekly relabelled_df ∧
  ∀ B output w,
    plot_projections B spec_df output w
    = plot_projections B relabelled_df output w.
Proof.
  assert (Forall2 (λ r1 r2 : row, ∀ c, c ∈ "Semana" :: METRICS → r1 c = r2 c)
                  (rows spec_df) (rows relabelled_df)) as Hrows.
  { repeat constructor;
      (intros c Hc;
       repeat (apply elem_of_cons in Hc as [->|Hc]; [reflexivity |]);
       by apply elem_of_nil in Hc). }
  split; [by repeat split |].
  apply (weekly_ignores_other_columns spec_df relabelled_df);
    [reflexivity.. | exact Hrows].
Defined.

(** * Further properties of the script *)

(** ** What the effects leave in place *)

Lemma grows_by_dirs_refl (w : World) : grows_by_dirs w w.
Proof. repeat split. by left. Qed.

Lemma grows_by_dirs_trans (w1 w2 w3 : World) :
  grows_by_dirs w1 w2 → grows_by_dirs w2 w3 → grows_by_dirs w1 w3.
Proof.
  intros (Hc1 & Ho1 & H1) (Hc2 & Ho2 & H2).
  split; [congruence |]. split; [congruence |].
  intros p. destruct (H1 p) as [E1|(N1 & D1)], (H2 p) as [E2|(N2 & D2)].
  - left. congruence.
  - right. split; congruence.
  - right. split; congruence.
  - congruence.
Qed.

Lemma stat_insert_nonempty (w : World) (l : list string) (n : node) :
  l ≠ [] → stat (with_files <[l := n]> w) l = Some n.
Proof.
  intros Hl. destruct l as [|x l]; [done |]. simpl. by rewrite lookup_insert_eq.
Qed.

Lemma stat_None_nonempty (w : World) (l : list string) :
  stat w l = None → l ≠ [].
Proof. by intros H ->. Qed.

Lemma grows_by_dirs_insert (w : World) (l : list string) :
  stat w l = None → grows_by_dirs w (with_files <[l := Dir]> w).
Proof.
  intros Hl. split; [done |]. split; [done |]. intros p.
  destruct (decide (p = l)) as [->|Hne].
  - right. split; [done |]. by apply stat_insert_nonempty, (stat_None_nonempty w).
  - left. by apply stat_insert_ne.
Qed.

(** [os.mkdir] changes the world only when it returns, and then by the
    one directory. *)
Lemma os_mkdir_outcome (l : list string) (w : World) :
  (∃ e, os_mkdir l w = (Raise e, w)) ∨
  (stat w l = None ∧ os_mkdir l w = (Ok (), with_files <[l := Dir]> w)).
Proof.
  unfold os_mkdir. destruct (blocked w l); [left; by eexists |].
  destruct (stat w l) as [n|] eqn:Hl; [left; by eexists |].
  destruct (stat w (removelast l)) as [[|d]|]; [by right | left; by eexists..].
Qed.

Lemma mkdir_once_grows (l : list string) (exist_ok : bool) (w : World) :
  grows_by_dirs w (mkdir_once l exist_ok w).2.
Proof.
  unfold mkdir_once.
  destruct (os_mkdir_outcome l w) as [[e ->]|[Hl ->]].
  - destruct e; try destruct (exist_ok && is_dir w l); apply grows_by_dirs_refl.
  - by apply grows_by_dirs_insert.
Qed.

Lemma mkdir_parents_grows (base rnames : list string) (exist_ok : bool)
    (w : World) :
  grows_by_dirs w (mkdir_parents base rnames exist_ok w).2.
Proof.
  revert exist_ok w. induction rnames as [|x rparent IH]; intros exist_ok w;
    cbn [mkdir_parents].
  - destruct (os_mkdir_outcome (base ++ reverse []) w) as [[e ->]|[Hl ->]];
      [|by apply grows_by_dirs_insert].
    destruct e; try destruct (exist_ok && is_dir w _); apply grows_by_dirs_refl.
  - destruct (os_mkdir_outcome (base ++ reverse (x :: rparent)) w)
      as [[e ->]|[Hl ->]]; [|by apply grows_by_dirs_insert].
    destruct e; try destruct (exist_ok && is_dir w _);
      try apply grows_by_dirs_refl.
    run_io. pose proof (IH true w) as Hrec.
    destruct (mkdir_parents base rparent true w) as [[u|e] w1]; [|done].
    eapply grows_by_dirs_trans; [exact Hrec | apply mkdir_once_grows].
Qed.

Lemma mkdir_grows (p : Path) (parents exist_ok : bool) (w : World) :
  grows_by_dirs w (mkdir p parents exist_ok w).2.
Proof.
  unfold mkdir. destruct parents;
    [apply mkdir_parents_grows | apply mkdir_once_grows].
Qed.

(** [write_bytes] changes the world only when it returns, and then at the
    one path. *)
Lemma write_bytes_outcome (p : Path) (data : string) (w : World) :
  (∃ e, write_bytes p data w = (Raise e, w)) ∨
  (locate w p ≠ [] ∧
   write_bytes p data w = (Ok (), with_files <[locate w p := File data]> w)).
Proof.
  unfold write_bytes. destruct (blocked w (locate w p)); [left; by eexists |].
  destruct (stat w (locate w p)) as [[|d]|] eqn:Hl; [left; by eexists | |].
  - right. split; [by intros E; rewrite E in Hl | done].
  - destruct (stat w (removelast (locate w p))) as [[|d]|];
      [|left; by eexists..].
    right. split; [by intros E; rewrite E in Hl | done].
Qed.

(** ** [plot_projections] and what was there before *)


(** For a table of 64-bit integers and an output path of plain names
    whose image is a PNG, [plot_projections] removes nothing and changes
    nothing that it found, whatever its outcome: afterwards every path
    holds what it held, or a directory where there was nothing, or, after a
    run that returned, the image at the path where [savefig] writes. The
    working directory is kept and nothing is printed. *)
Theorem plot_projections_keeps_entries (B : Backend) (df : DataFrame)
    (output target : Path) (w w' : World) (r : result ()) :
  int64_table df = true →
  entry_names (locate w output) = true →
  savefig_target B output = Ok (target, "png") →
  plot_projections B df output w = (r, w') →
  cwd w' = cwd w ∧ stdout w' = stdout w ∧
  ∀ p, stat w' p = stat w p
       ∨ (stat w p = None ∧ stat w' p = Some Dir)
       ∨ (r = Ok () ∧
          ∃ fig, p = locate w target ∧
                 stat w' p = Some (File (print_figure B "png" fig))).
Proof.
  intros Hdf _ Htarget.
  destruct (int64_table_drawn df Hdf) as (fig & Ht & Hfig).
  unfold plot_projections. run_io. rewrite Ht, Hfig.
  pose proof (mkdir_grows (parent output) true true w) as Hgrow.
  destruct (mkdir (parent output) true true w) as [[u|e] w1]; simpl in Hgrow;
    [|intros [= <- <-]; destruct Hgrow as (? & ? & Hst);
      split; [done |]; split; [done |]; intros p;
      destruct (Hst p); by auto].
  destruct Hgrow as (Hcwd & Hout & Hst).
  unfold savefig. run_io. rewrite Htarget. cbn [fst snd].
  destruct (write_bytes_outcome target (print_figure B "png" fig) w1)
    as [[e ->]|[Hne ->]].
  { intros [= <- <-]. split; [done |]. split; [done |]. intros p.
    destruct (Hst p); by auto. }
  intros [= <- <-]. split; [done |]. split; [done |]. intros p.
  assert (locate w1 target = locate w target) as Hloc
    by (unfold locate; by rewrite Hcwd).
  destruct (decide (p = locate w1 target)) as [->|Hp].
  - right. right. split; [done |]. exists fig.
    split; [done |]. by apply stat_insert_nonempty.
  - rewrite stat_insert_ne by done. destruct (Hst p); by auto.
Qed.

(** ** [mkdir] where the directory is there, or cannot be *)

Lemma mkdir_parents_existing (base rnames : list string) (w : World) :
  closed w → stat w (base ++ reverse rnames) = Some Dir →
  mkdir_parents base rnames true w = (Ok (), w).
Proof.
  intros Hcl Hl.
  destruct (os_mkdir_exists w _ Hcl Hl) as [Hmk Hdir].
  destruct rnames; cbn [mkdir_parents]; rewrite Hmk; cbv beta iota zeta;
    cbn [andb]; by rewrite Hdir.
Qed.

Lemma mkdir_existing (p : Path) (w : World) :
  closed w → stat w (locate w p) = Some Dir →
  mkdir p true true w = (Ok (), w).
Proof.
  intros Hcl Hl. unfold mkdir. apply mkdir_parents_existing; [done |].
  rewrite reverse_involutive. unfold locate in Hl. by destruct (absolute p).
Qed.

Lemma mkdir_parents_stopped (base rnames : list string) (w : World) :
  blocked w (base ++ reverse rnames) = true
  ∨ (∃ d, stat w (base ++ reverse rnames) = Some (File d)) →
  mkdir_parents base rnames true w
  = (Raise (if blocked w (base ++ reverse rnames)
            then NotADirectoryError else FileExistsError), w).
Proof.
  intros H.
  assert (os_mkdir (base ++ reverse rnames) w
          = (Raise (if blocked w (base ++ reverse rnames)
                    then NotADirectoryError else FileExistsError), w)
          ∧ is_dir w (base ++ reverse rnames) = false) as [Hmk Hdir].
  { unfold os_mkdir, is_dir.
    destruct (blocked w (base ++ reverse rnames)); [done |].
    destruct H as [H|[d ->]]; done. }
  destruct rnames; cbn [mkdir_parents]; rewrite Hmk;
    destruct (blocked w _); cbv beta iota zeta; cbn [andb]; by rewrite Hdir.
Qed.

(** For a table of 64-bit integers and an output path of plain names:
    when a regular file stands where the directory of the output should
    be, or above it, [plot_projections] raises the error of [os.mkdir]
    ([FileExistsError] for the file itself, [NotADirectoryError] for one
    above) and leaves the world as it was: [exist_ok] excuses an existing
    directory only. *)
Theorem plot_projections_stopped_by_file (B : Backend) (df : DataFrame)
    (output : Path) (w : World) :
  int64_table df = true →
  entry_names (locate w output) = true →
  blocked w (locate w (parent output)) = true
  ∨ (∃ d, stat w (locate w (parent output)) = Some (File d)) →
  plot_projections B df output w
  = (Raise (if blocked w (locate w (parent output))
            then NotADirectoryError else FileExistsError), w).
Proof.
  intros Hdf _ H. destruct (int64_table_drawn df Hdf) as (fig & Ht & Hfig).
  assert (locate w (parent output)
          = (if absolute (parent output) then [] else cwd w)
            ++ reverse (reverse (parts (parent output)))) as Hloc.
  { rewrite reverse_involutive. unfold locate. by destruct (absolute _). }
  unfold plot_projections. run_io. rewrite Ht, Hfig.
  unfold mkdir. rewrite Hloc in H |- *.
  by rewrite (mkdir_parents_stopped _ _ w H).
Qed.

(** For a table of 64-bit integers: when the output path, made of plain
    names and ending in [.png], is a directory, in a world where every
    entry lies in a directory, [plot_projections] raises
    [IsADirectoryError] from [savefig] and leaves the world as it was. *)
Theorem plot_projections_output_is_directory (B : Backend) (df : DataFrame)
    (output : Path) (w : World) :
  int64_table df = true →
  world_ok w = true →
  entry_names (locate w output) = true →
  filetype output = "png" →
  stat w (locate w output) = Some Dir →
  plot_projections B df output w = (Raise IsADirectoryError, w).
Proof.
  intros Hdf [Hcl Hcwd]%world_ok_spec _ Hpng Hdir.
  assert (filetype output ∈ supported_filetypes) as Htype
    by (rewrite Hpng; apply png_supported).
  destruct (int64_table_drawn df Hdf) as (fig & Ht & Hfig).
  destruct (savefig_target_supported B output Htype) as [Htarget Hparts].
  destruct (exists_last Hparts) as (ps & x & Hps).
  destruct (locate_parent w output ps x Hps) as [Hloc _].
  assert (stat w (locate w (parent output)) = Some Dir) as Hparent.
  { rewrite <-(take_app_length (locate w (parent output)) [x]), <-Hloc.
    apply prefixes_are_dirs; [done | by eexists |].
    rewrite Hloc, length_app. simpl. lia. }
  unfold plot_projections. run_io.
  rewrite Ht, Hfig, (mkdir_existing _ w Hcl Hparent).
  unfold savefig. run_io. rewrite Htarget. cbn [fst snd].
  unfold write_bytes. by rewrite (dir_not_blocked w _ Hcl Hdir), Hdir.
Qed.

(** ** Running twice *)

Lemma closed_insert_file (w : World) (l : list string) (x data : string) :
  closed w → stat w l = Some Dir → stat w (l ++ [x]) ≠ Some Dir →
  closed (with_files <[l ++ [x] := File data]> w).
Proof.
  intros Hcl Hl Hx q n Hq. simpl in Hq.
  apply lookup_insert_Some in Hq as [[<- _]|[Hne Hq]].
  - rewrite removelast_last, stat_insert_ne; [done |].
    intros E. apply (f_equal length) in E. rewrite length_app in E.
    simpl in E. lia.
  - rewrite stat_insert_ne; [by eapply Hcl |].
    intros E. apply Hx. rewrite <-E. by eapply Hcl.
Qed.

Lemma with_files_insert_twice (w : World) (l : list string) (n : node) :
  with_files <[l := n]> (with_files <[l := n]> w) = with_files <[l := n]> w.
Proof. unfold with_files. simpl. by rewrite insert_insert_eq. Qed.

(** For a table of 64-bit integers and an output path of plain names that
    ends in [.png], a second run of [plot_projections] changes nothing
    more: the directories are there, and the image is replaced by the same
    image. *)
Theorem plot_projections_twice (B : Backend) (df : DataFrame) (output : Path)
    (w : World) :
  int64_table df = true →
  world_ok w = true →
  entry_names (locate w output) = true →
  blocked w (locate w output) = false →
  stat w (locate w output) ≠ Some Dir →
  filetype output = "png" →
  ∃ w2, plot_projections B df output w = (Ok (), w2) ∧
        plot_projections B df output w2 = (Ok (), w2).
Proof.
  intros Hdf Hw _ Hfree Hnodir Hpng.
  assert (filetype output ∈ supported_filetypes) as Htype
    by (rewrite Hpng; apply png_supported).
  destruct (int64_table_drawn df Hdf) as (fig & Ht & Hfig).
  destruct (plot_projections_run B df output w _ fig Ht Hfig Hw Hfree Hnodir
              Htype) as (w1 & Hmk & Hadd & Hdirs & Hsave & Hrun).
  cbn zeta in Hsave, Hrun.
  apply world_ok_spec in Hw as [Hcl Hcwd].
  destruct (savefig_target_supported B output Htype) as [Htarget Hparts].
  destruct (exists_last Hparts) as (ps & x & Hps).
  destruct (locate_parent w output ps x Hps) as [Hloc Hlocp].
  set (l' := locate w (parent output)) in *.
  set (data := print_figure B (filetype output) fig) in *.
  eexists. split; [exact Hrun |].
  (* the world after the directories were made *)
  assert (closed w1 ∧ stat w1 l' = Some Dir) as [Hcl1 Hdir1].
  { destruct (mkdir_parents_spec (if absolute output then [] else cwd w)
                (reverse ps) w) as (w1' & Hmk' & Hcl1 & Hdir1 & _).
    - done.
    - by destruct (absolute output).
    - rewrite reverse_involutive, <-Hlocp. intros k d.
      rewrite blocked_false in Hfree.
      destruct (decide (k ≤ length l')%nat).
      + rewrite <-(take_app_le l' [x]) by done. rewrite <-Hloc.
        apply Hfree. rewrite Hloc, length_app. simpl. lia.
      + rewrite take_ge by lia. rewrite <-(take_app_length l' [x]), <-Hloc.
        apply Hfree. rewrite Hloc, length_app. simpl. lia.
    - unfold mkdir in Hmk. cbn [parent absolute parts] in Hmk.
      rewrite Hps, removelast_last in Hmk.
      rewrite reverse_involutive, <-Hlocp in Hdir1.
      rewrite Hmk in Hmk'. injection Hmk' as <-. done. }
  destruct Hadd as (Hcwd1 & Hout1 & Hst1).
  assert (stat w1 (l' ++ [x]) ≠ Some Dir) as Hnodir1.
  { destruct (Hst1 (l' ++ [x])) as [->|(_ & _ & Hpre)]; [by rewrite <-Hloc |].
    apply prefix_length in Hpre. rewrite length_app in Hpre. simpl in Hpre. lia. }
  rewrite Hloc.
  set (w2 := with_files <[l' ++ [x] := File data]> w1).
  assert (closed w2) as Hcl2 by (by apply closed_insert_file).
  assert (stat w2 l' = Some Dir) as Hdir2.
  { unfold w2. rewrite stat_insert_ne; [done |].
    intros E. apply (f_equal length) in E. rewrite length_app in E.
    simpl in E. lia. }
  assert (locate w2 (parent output) = l') as Hlocp2.
  { unfold l', locate. simpl. by rewrite Hcwd1. }
  assert (locate w2 output = l' ++ [x]) as Hloc2.
  { rewrite <-Hloc. unfold locate. simpl. by rewrite Hcwd1. }
  unfold plot_projections. run_io. rewrite Ht, Hfig.
  rewrite (mkdir_existing _ w2 Hcl2) by (by rewrite Hlocp2).
  unfold savefig. run_io. rewrite Htarget. cbn [fst snd].
  rewrite (write_bytes_under_dir w2 output l' x) by
    (try done; unfold w2; rewrite stat_insert_eq; done).
  fold data. unfold w2. by rewrite with_files_insert_twice.
Qed.

(** ** The loader *)

Lemma read_bytes_keeps_world (p : Path) (w : World) :
  (read_bytes p w).2 = w.
Proof.
  unfold read_bytes. destruct (blocked w (locate w p)); [done |].
  by destruct (stat w (locate w p)) as [[|d]|].
Qed.

Lemma run_reader_keeps_world (B : Backend) (r : reader) (path : Path)
    (w : World) :
  (run_reader B r path w).2 = w.
Proof.
  unfold run_reader, read_csv, read_excel. run_io.
  pose proof (read_bytes_keeps_world path w) as H.
  destruct r, (read_bytes path w) as [[data|e] w1];
    simpl in H; subst w1; done.
Qed.

(** [load_dataset] only reads: whatever it returns or raises, the world is
    the one it was given. *)
Theorem load_dataset_reads_only (B : Backend) (path : Path) (w : World) :
  (load_dataset B path w).2 = w.
Proof. unfold load_dataset. apply run_reader_keeps_world. Qed.


(** For a directory, [load_dataset] raises [IsADirectoryError], whatever
    the extension. *)
Theorem load_dataset_directory (B : Backend) (path : Path) (w : World) :
  blocked w (locate w path) = false →
  stat w (locate w path) = Some Dir →
  load_dataset B path w = (Raise IsADirectoryError, w).
Proof.
  intros Hfree Hdir.
  assert (read_bytes path w = (Raise IsADirectoryError, w)) as Hread
    by (unfold read_bytes; by rewrite Hfree, Hdir).
  unfold load_dataset, run_reader, read_csv, read_excel. run_io.
  destruct (choose_reader path); by rewrite Hread.
Qed.

(** ** [main] from end to end *)








(** ** What the aggregation keeps *)

Lemma arithmetic_sum_cons (z : Z) (zs : list Z) :
  arithmetic_sum (z :: zs) = (z + arithmetic_sum zs)%Z.
Proof. done. Qed.

Lemma arithmetic_sum_zeros {A} (l : list A) :
  arithmetic_sum ((λ _, 0%Z) <$> l) = 0%Z.
Proof.
  induction l as [|x l IH]; [done |].
  rewrite fmap_cons, arithmetic_sum_cons. lia.
Qed.

Lemma arithmetic_sum_add {A} (a b : A → Z) (l : list A) :
  arithmetic_sum ((λ x, (a x + b x)%Z) <$> l)
  = (arithmetic_sum (a <$> l) + arithmetic_sum (b <$> l))%Z.
Proof.
  induction l as [|x l IH]; [done |].
  rewrite !fmap_cons, !arithmetic_sum_cons. lia.
Qed.

Lemma arithmetic_sum_only (k : cell) (z : Z) (ks : list cell) :
  NoDup ks → k ∈ ks →
  arithmetic_sum ((λ k', if decide (k = k') then z else 0%Z) <$> ks) = z.
Proof.
  induction ks as [|k0 ks IH]; [by inversion 2 |].
  intros [Hk0 Hnd]%NoDup_cons Hin. rewrite fmap_cons, arithmetic_sum_cons.
  cbv beta. destruct (decide (k = k0)) as [->|Hne].
  - rewrite (list_fmap_ext _ (λ _, 0%Z) ks).
    + rewrite arithmetic_sum_zeros. lia.
    + intros i k' Hk'%list_elem_of_lookup_2.
      rewrite decide_False; [done |]. by intros <-.
  - apply elem_of_cons in Hin as [->|Hin]; [done |].
    rewrite IH by done. lia.
Qed.

(** Summing by key and then over the keys is summing over all rows. *)
Lemma sum_by_key (f : row → cell) (g : row → Z) (ks : list cell)
    (rs : list row) :
  NoDup ks → (∀ r, r ∈ rs → f r ∈ ks) →
  arithmetic_sum
    ((λ k, arithmetic_sum (g <$> filter (λ r : row, f r = k) rs)) <$> ks)
  = arithmetic_sum (g <$> rs).
Proof.
  intros Hnd. induction rs as [|r rs IH]; intros Hin.
  - apply arithmetic_sum_zeros.
  - rewrite (list_fmap_ext _
      (λ k, ((if decide (f r = k) then g r else 0)
             + arithmetic_sum (g <$> filter (λ r : row, f r = k) rs))%Z)
      ks).
    + rewrite arithmetic_sum_add, arithmetic_sum_only, IH; [done | | done |].
      * intros r' Hr'. apply Hin. by right.
      * apply Hin. by left.
    + intros i k _. rewrite filter_cons.
      destruct (decide (f r = k)); [by rewrite fmap_cons | lia].
Qed.

Lemma wrap64_sum_of_wrapped {A} (f : A → Z) (l : list A) :
  wrap64 (arithmetic_sum ((λ x, wrap64 (f x)) <$> l))
  = wrap64 (arithmetic_sum (f <$> l)).
Proof.
  induction l as [|x l IH]; [done |].
  rewrite !fmap_cons, !arithmetic_sum_cons.
  rewrite wrap64_add_l, <-wrap64_add_r, IH. by rewrite wrap64_add_r.
Qed.

Lemma week_sums_fit_spec (df : DataFrame) (m : string) (w : cell) :
  week_sums_fit df m = true → w ∈ group_keys (grouped df) →
  in_int64 (arithmetic_sum (int_of <$> cells_of_week df w m)) = true.
Proof.
  unfold week_sums_fit. rewrite forallb_forall. intros H Hw.
  apply H, list_elem_of_In. by apply elem_of_group_keys in Hw.
Qed.

(** Grouping loses nothing and counts nothing twice: for a table with
    distinct column labels and integers of the [int64] range in the metric
    columns, the values of a
    metric in the weekly table and the cells of that metric in all rows of
    the input add up to the same 64 bits; and to the same number, when the
    sum of the metric over the rows of every week fits the [int64]
    range. *)
Theorem weekly_keeps_column_totals (df : DataFrame) :
  NoDup (columns df) →
  has_columns df = true → int64_metrics df = true →
  comparable_weeks df = true →
  ∃ t, weekly df = Ok t ∧
    ∀ m zs, m ∈ METRICS → column_cells df m = CInt <$> zs →
      ∃ ys, getcolumn t m = Ok (CInt <$> ys) ∧
            wrap64 (arithmetic_sum ys) = wrap64 (arithmetic_sum zs) ∧
            (week_sums_fit df m = true →
             arithmetic_sum ys = arithmetic_sum zs).
Proof.
  intros _ Hc Hi Hw. pose proof (int64_metrics_numeric df Hi) as Hn.
  exists (week_totals df). split; [by apply weekly_numeric |].
  intros m zs Hm Hzs.
  set (exact := λ w, arithmetic_sum (int_of <$> cells_of_week df w m)).
  assert (arithmetic_sum (exact <$> group_keys (grouped df))
          = arithmetic_sum zs) as Hexact.
  { unfold exact, cells_of_week.
    rewrite (list_fmap_ext _
      (λ k, arithmetic_sum ((λ r : row, int_of (r m))
                            <$> filter (λ r : row, r "Semana" = k) (rows df)))
      (group_keys (grouped df)))
      by (intros i k _; by rewrite <-list_fmap_compose).
    rewrite sum_by_key.
    - f_equal. rewrite (list_fmap_compose (λ r : row, r m) int_of).
      fold (column_cells df m). by rewrite Hzs, int_of_CInt.
    - apply NoDup_group_keys.
    - intros r Hr. apply elem_of_group_keys.
      by apply (list_elem_of_fmap_2 (λ r : row, r "Semana")). }
  exists ((λ w, wrap64 (exact w)) <$> group_keys (grouped df)).
  split; [|split].
  - rewrite getcolumn_week_totals by done. f_equal.
    rewrite <-list_fmap_compose. apply list_fmap_ext. intros i w _.
    cbn [compose]. unfold week_total.
    by rewrite (int64_metrics_dtype df m Hi Hm).
  - by rewrite wrap64_sum_of_wrapped, Hexact.
  - intros Hfit. rewrite <-Hexact. f_equal.
    apply list_fmap_ext. intros i w Hin%list_elem_of_lookup_2.
    apply wrap64_in_range. by apply week_sums_fit_spec.
Qed.

(** ** What is drawn *)

Lemma traverse_length {A B} (f : A → result B) (l : list A) (ys : list B) :
  traverse f l = Ok ys → length ys = length l.
Proof. rewrite traverse_Ok. intros H. symmetry. by eapply Forall2_length. Qed.

Lemma entries_width (df : DataFrame) (t : Weekly) :
  weekly df = Ok t → Forall (λ e, length e.2 = length METRICS) (entries t).
Proof.
  intros (_ & _ & Hes & _)%weekly_inv. apply traverse_Ok in Hes.
  induction Hes as [|k e ks es He _ IH]; constructor; [|done].
  unfold group_sum in He. change (selection (grouped df)) with METRICS in He.
  destruct (traverse _ METRICS) as [vals|] eqn:Hvals; [|done].
  injection He as <-. by apply traverse_length in Hvals.
Qed.

Lemma list_find_key (es : list (cell * list cell)) (e : cell * list cell) :
  NoDup es.*1 → e ∈ es →
  ∃ j, list_find (λ e0 : cell * list cell, e0.1 = e.1) es = Some (j, e).
Proof.
  intros Hnd He.
  destruct (list_find_elem_of (λ e0 : cell * list cell, e0.1 = e.1) es e He
              eq_refl) as [[j e'] Hfind].
  exists j. rewrite Hfind. do 2 f_equal.
  apply list_find_Some in Hfind as (Hj & Hkey & _).
  apply (entries_same_key es); [done | | done | done].
  by eapply list_elem_of_lookup_2.
Qed.

Lemma omap_total {A B} (f : A → option B) (l : list A) :
  Forall (λ x, is_Some (f x)) l → Some <$> omap f l = f <$> l.
Proof.
  induction 1 as [|x l [y Hy] _ IH]; [done |].
  cbn [omap list_omap]. rewrite Hy, !fmap_cons, IH. by rewrite Hy.
Qed.

(** The points of a subplot are the rows of the weekly table: the y value
    drawn at a week is the value of the metric at that week. *)
Lemma getcolumn_loc (df : DataFrame) (t : Weekly) (m : string) :
  weekly df = Ok t → m ∈ METRICS →
  ∃ ys, getcolumn t m = Ok ys ∧
        Some <$> ys = (λ w, loc t w m) <$> index t.
Proof.
  intros Ht Hm.
  pose proof (entries_width df t Ht) as Hwidth.
  pose proof (index_weekly df t Ht) as Hidx.
  assert (NoDup (entries t).*1) as Hnd.
  { fold (index t). rewrite Hidx. apply NoDup_group_keys. }
  apply weekly_inv in Ht as (_ & _ & _ & Hcols).
  destruct (column_pos_elem_of t m) as (i & Hpos & Hi); [by rewrite Hcols |].
  unfold getcolumn. rewrite Hpos. eexists. split; [done |].
  rewrite omap_total.
  - unfold index. rewrite <-list_fmap_compose.
    apply list_fmap_ext. intros j e He%list_elem_of_lookup_2.
    unfold loc. cbn [compose].
    destruct (list_find_key (entries t) e Hnd He) as [j' ->].
    by rewrite Hpos.
  - eapply Forall_impl; [exact Hwidth |]. intros e He. cbn beta.
    apply lookup_lt_is_Some. rewrite He, <-Hcols.
    by eapply lookup_lt_Some.
Qed.

Lemma plot_metric_Ok (t : Weekly) (mt : string * string) (ax : Axes) :
  plot_metric t mt = Ok ax →
  ∃ ys, getcolumn t mt.1 = Ok ys ∧
        ax = {| xdata := index t; ydata := ys; marker := "o"; title := mt.2;
                xlabel := "Semana"; ylabel := "Quantidade" |}.
Proof.
  unfold plot_metric. destruct (getcolumn t mt.1) as [ys|e]; [|done].
  cbn [mbind result_bind].
  destruct (update_units (index t)); [|done]. cbn [mbind result_bind].
  destruct (update_units ys); [|done]. cbn [mbind result_bind].
  destruct (to_float_array (index t)); [|done]. cbn [mbind result_bind].
  destruct (to_float_array ys); [|done]. cbn [mbind result_bind].
  intros [= <-]. by exists ys.
Qed.

Lemma Forall2_impl_left {A B} (P Q : A → B → Prop) (l : list A) (k : list B) :
  Forall2 P l k → (∀ x y, x ∈ l → P x y → Q x y) → Forall2 Q l k.
Proof.
  induction 1 as [|x y l k Hxy _ IH]; intros H; constructor.
  - apply H; [by left | done].
  - apply IH. intros x' y' Hx'. apply H. by right.
Qed.

(** The figure of a table of 64-bit integers: the table is aggregated
    and drawn, with one subplot per metric, in the order of [METRICS],
    under the title at the same place in [TITLES]; each shows the weeks of
    the weekly table on the x axis and, at every week, the value of its
    metric at that week, with round markers and the labels ["Semana"] and
    ["Quantidade"]. *)
Theorem draw_plots_the_weekly_table (df : DataFrame) :
  int64_table df = true →
  ∃ t fig, weekly df = Ok t ∧ draw t = Ok fig ∧
    Forall2 (λ (ax : Axes) (mt : string * string),
               title ax = mt.2 ∧ xdata ax = index t ∧
               Some <$> ydata ax = (λ w, loc t w mt.1) <$> index t ∧
               marker ax = "o" ∧ xlabel ax = "Semana" ∧
               ylabel ax = "Quantidade")
            fig (zip METRICS TITLES).
Proof.
  intros Hdf. destruct (int64_table_drawn df Hdf) as (fig & Ht & Hfig).
  exists (week_totals df), fig. split; [done |]. split; [done |].
  unfold draw in Hfig. apply traverse_Ok in Hfig.
  apply Forall2_flip. eapply Forall2_impl_left; [exact Hfig |].
  intros [m ttl] ax Hin Hax. cbn [fst snd flip].
  apply elem_of_zip_l in Hin.
  destruct (getcolumn_loc df _ m Ht Hin) as (ys & Hys & Hloc).
  apply plot_metric_Ok in Hax as (ys' & Hys' & ->). cbn [fst] in Hys'.
  rewrite Hys in Hys'. injection Hys' as <-. by cbn.
Qed.

(** A table without rows: the aggregation returns the empty weekly table,
    and four subplots without points are drawn under their titles. *)
Theorem empty_table_gives_empty_charts (df : DataFrame) :
  has_columns df = true → rows df = [] →
  weekly df = Ok {| value_columns := METRICS; entries := [] |} ∧
  draw {| value_columns := METRICS; entries := [] |}
  = Ok ((λ ttl, {| xdata := []; ydata := []; marker := "o"; title := ttl;
                   xlabel := "Semana"; ylabel := "Quantidade" |}) <$> TITLES).
Proof.
  intros Hc Hrows. split; [|reflexivity].
  apply weekly_of_entries; [done | |];
    unfold group_keys, key_values; cbn [obj grouped]; by rewrite Hrows.
Qed.

(** ** How the aggregation fails *)

Lemma sum_from_Raise (acc : cell) (cs : list cell) (e : exception) :
  sum_from acc cs = Raise e → e = TypeError.
Proof.
  revert acc. induction cs as [|c cs IH]; intros acc; [done |].
  cbn [sum_from]. destruct acc, c; cbn; try (by intros [= <-]); apply IH.
Qed.

Lemma traverse_Raise {A B} (f : A → result B) (l : list A) (e : exception) :
  traverse f l = Raise e → ∃ x, x ∈ l ∧ f x = Raise e.
Proof.
  induction l as [|x l IH]; [done |]. cbn [traverse].
  destruct (f x) as [y|e'] eqn:Hx; cbn.
  - destruct (traverse f l) as [ys|e'] eqn:Hl; cbn; [done |].
    intros [= ->]. destruct IH as (x' & Hin & Hx'); [done |].
    exists x'. split; [by right | done].
  - intros [= ->]. exists x. split; [by left | done].
Qed.

Lemma groupby_sum_Raise (g : DataFrameGroupBy) (e : exception) :
  groupby_sum g = Raise e → e = TypeError.
Proof.
  unfold groupby_sum.
  destruct (traverse (group_sum g) (group_keys g)) as [es|e'] eqn:Hes; [done |].
  cbn. intros [= ->].
  apply traverse_Raise in Hes as (k & _ & Hk). unfold group_sum in Hk.
  destruct (traverse _ (selection g)) as [vals|e'] eqn:Hvals; [done |].
  cbn in Hk. injection Hk as ->.
  apply traverse_Raise in Hvals as (c & _ & Hc).
  destruct (infer_dtype _); [done.. |]. unfold column_sum, series_sum in Hc.
  destruct (_ <$> group_rows g k) as [|c0 cs]; [done |].
  by apply sum_from_Raise in Hc.
Qed.

(** Once the five columns are there, the aggregation can only fail with
    [TypeError]; it does when the week column holds both integers and
    texts, which cannot be put in order, and then [plot_projections] makes
    no directory and writes no file. *)
Theorem aggregation_fails_with_TypeError (df : DataFrame) :
  has_columns df = true →
  (∀ e, weekly df = Raise e → e = TypeError) ∧
  (comparable_weeks df = false →
   weekly df = Raise TypeError ∧
   ∀ B output w, plot_projections B df output w = (Raise TypeError, w)).
Proof.
  intros Hc.
  assert (∀ e, weekly df = Raise e → e = TypeError) as Honly.
  { intros e. unfold weekly. rewrite select_metrics_Ok by done.
    cbn [mbind result_bind].
    destruct (groupby_sum (grouped df)) as [t0|e'] eqn:Hsum.
    - cbn [mbind result_bind]. unfold sort_index.
      destruct (comparable (index t0)); [done |]. by intros [= <-].
    - cbn [mbind result_bind]. intros [= <-].
      by apply groupby_sum_Raise in Hsum. }
  split; [done |]. intros Hw.
  assert (weekly df = Raise TypeError) as Hraise.
  { destruct (weekly df) as [t|e] eqn:Ht; [|by rewrite (Honly e)].
    exfalso. pose proof (index_weekly df t Ht) as Hidx.
    apply weekly_inv in Ht as (_ & Hcmp & _ & _).
    unfold comparable_weeks in Hw.
    rewrite (comparable_subseteq (group_keys (grouped df)) (weeks df)) in Hw;
      [done | | done].
    intros k Hk. by apply elem_of_group_keys. }
  split; [done |]. intros B output w. by apply plot_projections_Raise.
Qed.

(** ** The reader by the name of the file *)

Lemma append_nil_l (t : string) : ("" ++ t)%string = t.
Proof. reflexivity. Qed.

Lemma append_cons (a : ascii) (s t : string) :
  (String a s ++ t)%string = String a (s ++ t).
Proof. reflexivity. Qed.

Lemma length_append (s t : string) :
  String.length (s ++ t)%string = (String.length s + String.length t)%nat.
Proof.
  induction s as [|a s IH]; [done |]. rewrite append_cons. simpl. by rewrite IH.
Qed.

Lemma rfind_app (c : ascii) (s t : string) :
  rfind c (s ++ t)%string
  = match rfind c t with
    | Some i => Some (String.length s + i)%nat
    | None => rfind c s
    end.
Proof.
  induction s as [|a s IH].
  - rewrite append_nil_l. by destruct (rfind c t).
  - rewrite append_cons. cbn [rfind String.length]. rewrite IH.
    by destruct (rfind c t).
Qed.

Lemma substring_all (t : string) : substring 0 (String.length t) t = t.
Proof. induction t as [|a t IH]; [done |]. simpl. by rewrite IH. Qed.

Lemma substring_skip (s t : string) (m : nat) :
  substring (String.length s) m (s ++ t)%string = substring 0 m t.
Proof.
  induction s as [|a s IH]; [done |]. rewrite append_cons. simpl. by rewrite IH.
Qed.

Lemma substring_split (i : nat) (s : string) :
  (i ≤ String.length s)%nat →
  (substring 0 i s ++ slice_from i s)%string = s.
Proof.
  unfold slice_from. revert i. induction s as [|a s IH]; intros [|i] Hi;
    simpl in Hi; try lia.
  - done.
  - rewrite append_nil_l. cbn [substring String.length Nat.sub].
    f_equal. apply substring_all.
  - cbn [substring String.length]. rewrite append_cons. f_equal.
    apply IH. lia.
Qed.

Lemma length_substring (i : nat) (s : string) :
  (i ≤ String.length s)%nat → String.length (substring 0 i s) = i.
Proof.
  revert i. induction s as [|a s IH]; intros [|i] Hi; simpl in *; try lia.
  rewrite IH; lia.
Qed.

Lemma suffix_of_name (p : Path) (stem ext : string) :
  name p = (stem ++ ext)%string → stem ≠ "" →
  rfind "." ext = Some 0%nat → (2 ≤ String.length ext)%nat →
  suffix p = ext.
Proof.
  intros Hname Hstem Hdot Hlen. unfold suffix. rewrite Hname.
  rewrite rfind_app, Hdot, length_append.
  assert (0 < String.length stem)%nat as Hpos by (destruct stem; simpl; [done | lia]).
  replace (0 <? String.length stem + 0)%nat with true
    by (symmetry; apply Nat.ltb_lt; lia).
  replace (String.length stem + 0 <?
           String.length stem + String.length ext - 1)%nat with true
    by (symmetry; apply Nat.ltb_lt; lia).
  cbn [andb]. unfold slice_from. rewrite length_append, Nat.add_0_r.
  rewrite substring_skip.
  replace (String.length stem + String.length ext - String.length stem)%nat
    with (String.length ext) by lia.
  apply substring_all.
Qed.

(** A file is read as comma-separated values exactly when its name is a
    stem that is not empty followed by [".csv"] in any mix of capitals and
    small letters; the directories on the path play no part, and a name
    that is only [".csv"] goes to the spreadsheet reader. *)
Theorem csv_reader_by_file_name (path : Path) :
  choose_reader path = ReadCsv ↔
  ∃ stem ext, name path = (stem ++ ext)%string ∧ stem ≠ "" ∧
              lower ext = ".csv".
Proof.
  rewrite choose_reader_csv. split.
  - unfold suffix. destruct (rfind "." (name path)) as [i|]; [|done].
    destruct (0 <? i)%nat eqn:Hpos; [|done].
    destruct (i <? String.length (name path) - 1)%nat eqn:Hlt; [|done].
    cbn [andb]. intros Hlow.
    apply Nat.ltb_lt in Hpos, Hlt.
    exists (substring 0 i (name path)), (slice_from i (name path)).
    split; [symmetry; apply substring_split; lia |]. split; [|done].
    intros Hempty. apply (f_equal String.length) in Hempty.
    rewrite length_substring in Hempty by lia. simpl in Hempty. lia.
  - intros (stem & ext & Hname & Hstem & Hlow).
    rewrite (suffix_of_name path stem ext); [done..| |].
    + apply lower_csv in Hlow.
      repeat (apply elem_of_cons in Hlow as [->|Hlow]; [done |]).
      by apply elem_of_nil in Hlow.
    + apply lower_csv in Hlow.
      repeat (apply elem_of_cons in Hlow as [->|Hlow]; [simpl; lia |]).
      by apply elem_of_nil in Hlow.
Qed.

(** ** Output paths that [savefig] does not take as they are *)

Lemma mkdir_parent_spec (output : Path) (w : World) :
  world_ok w = true →
  blocked w (locate w (parent output)) = false →
  (∀ d, stat w (locate w (parent output)) ≠ Some (File d)) →
  ∃ w1, mkdir (parent output) true true w = (Ok (), w1) ∧
        closed w1 ∧ stat w1 (locate w (parent output)) = Some Dir ∧
        adds_dirs w w1 (locate w (parent output)).
Proof.
  intros [Hcl Hcwd]%world_ok_spec Hfree Hnofile.
  set (l' := locate w (parent output)) in *.
  assert (l' = (if absolute (parent output) then [] else cwd w)
               ++ reverse (reverse (parts (parent output)))) as Hlocp.
  { rewrite reverse_involutive. unfold l', locate.
    by destruct (absolute (parent output)). }
  rewrite blocked_false in Hfree.
  destruct (mkdir_parents_spec (if absolute (parent output) then [] else cwd w)
              (reverse (parts (parent output))) w)
    as (w1 & Hmk & Hcl1 & Hdir1 & Hadd).
  { done. }
  { by destruct (absolute (parent output)). }
  { rewrite <-Hlocp. intros k d.
    destruct (decide (k < length l')%nat); [by apply Hfree |].
    rewrite take_ge by lia. apply Hnofile. }
  rewrite <-Hlocp in Hdir1, Hadd. by exists w1.
Qed.

(** For a table of 64-bit integers and an output path of plain names
    whose extension names no file type that the installed matplotlib
    knows: the directories above the output path are made, then [savefig]
    raises [ValueError]; they stay, and no file is written. *)
Theorem plot_projections_unsupported_extension (B : Backend) (df : DataFrame)
    (output : Path) (w : World) :
  int64_table df = true →
  world_ok w = true →
  entry_names (locate w output) = true →
  blocked w (locate w (parent output)) = false →
  (∀ d, stat w (locate w (parent output)) ≠ Some (File d)) →
  slice_from 1 (splitext (name output)).2 ≠ "" →
  filetype output ∉ supported_filetypes ++ more_filetypes B →
  ∃ w1, mkdir (parent output) true true w = (Ok (), w1) ∧
        stat w1 (locate w (parent output)) = Some Dir ∧
        grows_by_dirs w w1 ∧
        (∀ p d, stat w1 p = Some (File d) → stat w p = Some (File d)) ∧
        plot_projections B df output w = (Raise ValueError, w1).
Proof.
  intros Hdf Hw _ Hfree Hnofile Hext Htype.
  destruct (int64_table_drawn df Hdf) as (fig & Ht & Hfig).
  destruct (mkdir_parent_spec output w Hw Hfree Hnofile)
    as (w1 & Hmk & _ & Hdir & _).
  pose proof (mkdir_grows (parent output) true true w) as Hgrow.
  rewrite Hmk in Hgrow. cbn [snd] in Hgrow.
  exists w1. split; [done |]. split; [done |]. split; [done |]. split.
  { intros p d Hp. destruct Hgrow as (_ & _ & Hst).
    destruct (Hst p) as [<-|[_ Hd]]; [done | congruence]. }
  unfold plot_projections. run_io. rewrite Ht, Hfig, Hmk.
  unfold savefig, savefig_target. run_io.
  rewrite decide_False by done. by rewrite decide_False.
Qed.





(** ** Witnesses of the further properties *)

Lemma plot_projections_keeps_entries_witness :
  (int64_table example_df = true ∧
   entry_names (locate home default_output) = true ∧
   savefig_target demo default_output = Ok (default_output, "png")) ∧
  ∃ w', plot_projections demo example_df default_output home = (Ok (), w') ∧
        cwd w' = cwd home ∧ stdout w' = stdout home ∧
        stat w' ["home"; "ana"; "dados.CSV"] = Some (File "Semana,Venda").
Proof.
  split; [by repeat split |].
  eexists. split; [reflexivity |].
  destruct (plot_projections_keeps_entries demo example_df default_output
              default_output home _ _ eq_refl eq_refl eq_refl eq_refl)
    as (Hcwd & Hout & Hst).
  split; [exact Hcwd |]. split; [exact Hout |]. reflexivity.
Defined.

Lemma plot_projections_stopped_by_file_witness :
  let beside := relative ["dados.CSV"; "grafico.png"] in
  let below := relative ["dados.CSV"; "2024"; "grafico.png"] in
  (int64_table example_df = true ∧
   entry_names (locate home beside) = true ∧
   entry_names (locate home below) = true ∧
   stat home (locate home (parent beside)) = Some (File "Semana,Venda") ∧
   blocked home (locate home (parent below)) = true) ∧
  plot_projections demo example_df beside home = (Raise FileExistsError, home) ∧
  plot_projections demo example_df below home = (Raise NotADirectoryError, home).
Proof.
  intros beside below. split; [by repeat split |]. split.
  - apply (plot_projections_stopped_by_file demo example_df beside home);
      [reflexivity | reflexivity |].
    right. eexists. reflexivity.
  - apply (plot_projections_stopped_by_file demo example_df below home);
      [reflexivity | reflexivity |].
    left. reflexivity.
Defined.

Lemma plot_projections_output_is_directory_witness :
  (int64_table example_df = true ∧ world_ok album = true ∧
   entry_names (locate album (relative ["album.png"])) = true ∧
   filetype (relative ["album.png"]) = "png" ∧
   stat album (locate album (relative ["album.png"])) = Some Dir) ∧
  plot_projections demo example_df (relative ["album.png"]) album
  = (Raise IsADirectoryError, album).
Proof.
  split; [by repeat split |].
  apply (plot_projections_output_is_directory demo example_df
           (relative ["album.png"]) album); reflexivity.
Defined.

Lemma plot_projections_twice_witness :
  (int64_table example_df = true ∧ world_ok home = true ∧
   entry_names (locate home default_output) = true ∧
   blocked home (locate home default_output) = false ∧
   stat home (locate home default_output) ≠ Some Dir ∧
   filetype default_output = "png") ∧
  ∃ w2, plot_projections demo example_df default_output home = (Ok (), w2) ∧
        plot_projections demo example_df default_output w2 = (Ok (), w2).
Proof.
  assert (stat home (locate home default_output) ≠ Some Dir) as Hnodir
    by discriminate.
  split; [by repeat split |].
  apply (plot_projections_twice demo example_df default_output home);
    [reflexivity.. | exact Hnodir | reflexivity].
Defined.

Lemma load_dataset_directory_witness :
  (blocked home (locate home (relative [])) = false ∧
   stat home (locate home (relative [])) = Some Dir) ∧
  load_dataset demo (relative []) home = (Raise IsADirectoryError, home).
Proof.
  split; [by split |].
  apply (load_dataset_directory demo (relative []) home); reflexivity.
Defined.



Lemma weekly_keeps_column_totals_witness :
  (NoDup (columns example_df) ∧
   has_columns example_df = true ∧ int64_metrics example_df = true ∧
   comparable_weeks example_df = true ∧
   week_sums_fit example_df "Venda" = true) ∧
  ∃ t ys, weekly example_df = Ok t ∧
          getcolumn t "Venda" = Ok (CInt <$> ys) ∧
          arithmetic_sum ys = 22%Z.
Proof.
  assert (NoDup (columns example_df)) as Hnd
    by (apply (bool_decide_unpack _); reflexivity).
  split; [by repeat split |].
  destruct (weekly_keeps_column_totals example_df Hnd eq_refl eq_refl eq_refl)
    as (t & Ht & Hsum).
  destruct (Hsum "Venda" [7; 10; 5]%Z) as (ys & Hys & _ & Heq);
    [by left | reflexivity |].
  exists t, ys. split; [exact Ht |]. split; [exact Hys | exact (Heq eq_refl)].
Defined.

Lemma draw_plots_the_weekly_table_witness :
  int64_table example_df = true ∧
  ∃ t fig, weekly example_df = Ok t ∧ draw t = Ok fig ∧
    Forall2 (λ (ax : Axes) (mt : string * string),
               title ax = mt.2 ∧ xdata ax = index t ∧
               Some <$> ydata ax = (λ w, loc t w mt.1) <$> index t ∧
               marker ax = "o" ∧ xlabel ax = "Semana" ∧
               ylabel ax = "Quantidade")
            fig (zip METRICS TITLES).
Proof.
  split; [reflexivity |].
  apply (draw_plots_the_weekly_table example_df). reflexivity.
Defined.

Lemma empty_table_gives_empty_charts_witness :
  (has_columns empty_df = true ∧ rows empty_df = []) ∧
  weekly empty_df = Ok {| value_columns := METRICS; entries := [] |}.
Proof.
  split; [by split |].
  apply (empty_table_gives_empty_charts empty_df); reflexivity.
Defined.

Lemma aggregation_fails_with_TypeError_witness :
  (has_columns mixed_weeks_df = true ∧ comparable_weeks mixed_weeks_df = false) ∧
  weekly mixed_weeks_df = Raise TypeError ∧
  plot_projections demo mixed_weeks_df default_output home
  = (Raise TypeError, home).
Proof.
  split; [by split |].
  destruct (aggregation_fails_with_TypeError mixed_weeks_df eq_refl)
    as [_ Hmixed].
  destruct (Hmixed eq_refl) as [Hraise Hplot].
  split; [exact Hraise | apply Hplot].
Defined.

Lemma csv_reader_by_file_name_witness :
  choose_reader (relative ["2024.csv"; "vendas.Csv"]) = ReadCsv ∧
  choose_reader (relative ["2024.csv"; ".csv"]) = ReadExcel.
Proof.
  split; [|reflexivity].
  apply (csv_reader_by_file_name (relative ["2024.csv"; "vendas.Csv"])).
  exists "vendas", ".Csv". by repeat split.
Defined.

Lemma plot_projections_unsupported_extension_witness :
  let output := relative ["saida"; "grafico.dat"] in
  (int64_table example_df = true ∧ world_ok home = true ∧
   entry_names (locate home output) = true ∧
   blocked home (locate home (parent output)) = false ∧
   stat home (locate home (parent output)) = None ∧
   filetype output = "dat" ∧ more_filetypes demo = []) ∧
  ∃ w1, mkdir (parent output) true true home = (Ok (), w1) ∧
        stat w1 (locate home (parent output)) = Some Dir ∧
        grows_by_dirs home w1 ∧
        (∀ p d, stat w1 p = Some (File d) → stat home p = Some (File d)) ∧
        plot_projections demo example_df output home = (Raise ValueError, w1).
Proof.
  intros output. split; [by repeat split |].
  apply (plot_projections_unsupported_extension demo example_df output home);
    [reflexivity.. | | |].
  - intros d. discriminate.
  - discriminate.
  - apply (bool_decide_unpack _). reflexivity.
Defined.

